(** * rag-text-summarizer: retrieval and extractive summarisation

    A shallow embedding of

      - [src/rag/embeddings.py]      (EmbeddingModel)
      - [src/rag/retrieval.py]       (VectorRetriever)
      - [src/rag/pipeline.py]        (RAGPipeline)
      - [src/algorithms/statistical.py] (StatisticalSummarizer)
      - [src/algorithms/extractive.py]  (ExtractiveSummarizer)

    Python values are modelled as follows.  A [str] is the list of its
    Unicode code points.  An [int] is a [Z].  A float (numpy float32 or a
    Python float) is an exact rational [Q]: rounding, infinities and NaN are
    outside the model.  A raised exception is the [Raise] case of [result].
    The third-party libraries the program calls (nltk, scikit-learn, sumy,
    faiss, sentence-transformers) are records of functions that the
    definitions take as arguments. *)

From Stdlib Require Import String Ascii.
From Stdlib Require Import ZArith QArith List Bool Lia Lqa Sorted Permutation.
Import ListNotations.

Set Implicit Arguments.

(** ** Python primitives *)

Module Py.

Definition char := N.
Definition str := list char.

Fixpoint of_string (s : string) : str :=
  match s with
  | EmptyString => []
  | String a s' => N_of_ascii a :: of_string s'
  end.

Definition char_eqb (a b : char) : bool := N.eqb a b.

Fixpoint str_eqb (a b : str) : bool :=
  match a, b with
  | [], [] => true
  | x :: a', y :: b' => char_eqb x y && str_eqb a' b'
  | _, _ => false
  end.

(** Truth value of a sequence: [bool(x)] is [len(x) != 0]. *)
Definition truthy {A} (l : list A) : bool :=
  match l with [] => false | _ :: _ => true end.

(** [str.isspace] on one code point; the same set is what [str.strip]
    removes and what the pattern [\s] matches on a [str]. *)
Definition isspace (c : char) : bool :=
  (((9 <=? c) && (c <=? 13)) || ((28 <=? c) && (c <=? 32))
   || (c =? 133) || (c =? 160) || (c =? 5760)
   || ((8192 <=? c) && (c <=? 8202))
   || (c =? 8232) || (c =? 8233) || (c =? 8239) || (c =? 8287)
   || (c =? 12288))%N.

Fixpoint lstrip (s : str) : str :=
  match s with
  | [] => []
  | c :: s' => if isspace c then lstrip s' else s
  end.

Definition rstrip (s : str) : str := rev (lstrip (rev s)).

Definition strip (s : str) : str := rstrip (lstrip s).

Definition SPACE : char := 32%N.

(** [re.sub(r'\s+', ' ', s)]: every maximal run of whitespace becomes one
    space.  [in_run] says that the previous code point was whitespace. *)
Fixpoint sub_ws (in_run : bool) (s : str) : str :=
  match s with
  | [] => []
  | c :: s' =>
      if isspace c
      then (if in_run then sub_ws true s' else SPACE :: sub_ws true s')
      else c :: sub_ws false s'
  end.

Definition re_sub_ws (s : str) : str := sub_ws false s.

(** [sep.join(parts)] *)
Fixpoint join (sep : str) (parts : list str) : str :=
  match parts with
  | [] => []
  | [p] => p
  | p :: rest => p ++ sep ++ join sep rest
  end.

Definition len {A} (l : list A) : Z := Z.of_nat (length l).

(** [l[i]] with Python's negative indices; [None] stands for IndexError. *)
Definition getitem {A} (l : list A) (i : Z) : option A :=
  let j := (if i <? 0 then i + len l else i)%Z in
  if ((0 <=? j) && (j <? len l))%Z then nth_error l (Z.to_nat j) else None.

(** [l[:n]] *)
Definition slice_to {A} (l : list A) (n : Z) : list A :=
  if (n <? 0)%Z then firstn (Z.to_nat (len l + n)) l
  else firstn (Z.to_nat n) l.

(** [enumerate(l)] *)
Fixpoint enumerate_from {A} (i : nat) (l : list A) : list (nat * A) :=
  match l with
  | [] => []
  | x :: l' => (i, x) :: enumerate_from (S i) l'
  end.

Definition enumerate {A} (l : list A) : list (nat * A) := enumerate_from 0 l.

(** [sorted(l, key=key, reverse=reverse)]: a stable sort.  With
    [reverse=True] the result is descending and elements with equal keys
    still keep the order they had in [l]. *)
Section Sorted.
Variables (A K : Type) (lt : K -> K -> bool) (key : A -> K).
Variable reverse : bool.

(** [goes_before y x]: [y], which came later in the input than [x],
    must still be placed before [x]. *)
Definition goes_before (y x : A) : bool :=
  if reverse then lt (key x) (key y) else lt (key y) (key x).

Fixpoint insert (x : A) (l : list A) : list A :=
  match l with
  | [] => [x]
  | y :: l' => if goes_before y x then y :: insert x l' else x :: y :: l'
  end.

Definition sorted (l : list A) : list A := fold_right insert [] l.
End Sorted.

Definition Qlt_bool (a b : Q) : bool := negb (Qle_bool b a).

(** A dict as the list of its items in insertion order. *)
Definition dict (K V : Type) := list (K * V).

Section Dict.
Variables (K V : Type) (eqb : K -> K -> bool).

Fixpoint dict_get (d : dict K V) (k : K) : option V :=
  match d with
  | [] => None
  | (k', v) :: d' => if eqb k' k then Some v else dict_get d' k
  end.

Definition dict_keys (d : dict K V) : list K := map fst d.
Definition dict_values (d : dict K V) : list V := map snd d.

(** [d[k] = f(d.get(k))], keeping the position of an existing key. *)
Fixpoint dict_update (f : option V -> V) (k : K) (d : dict K V)
  : dict K V :=
  match d with
  | [] => [(k, f None)]
  | (k', v) :: d' =>
      if eqb k' k then (k', f (Some v)) :: d'
      else (k', v) :: dict_update f k d'
  end.
End Dict.

Inductive exn : Type :=
| ValueError (msg : str)
| IndexError (msg : str).

Inductive result (A : Type) : Type :=
| Ok (a : A)
| Raise (e : exn).

Arguments Ok {A} a.
Arguments Raise {A} e.

Definition bind {A B} (m : result A) (k : A -> result B) : result B :=
  match m with
  | Ok a => k a
  | Raise e => Raise e
  end.

Fixpoint mapM {A B} (f : A -> result B) (l : list A) : result (list B) :=
  match l with
  | [] => Ok []
  | x :: l' =>
      bind (f x) (fun y => bind (mapM f l') (fun ys => Ok (y :: ys)))
  end.

Definition index_or_raise {A} (l : list A) (i : Z) : result A :=
  match getitem l i with
  | Some x => Ok x
  | None => Raise (IndexError (of_string "list index out of range"))
  end.

End Py.

Import Py.

Notation "x <- m ;; k" := (bind m (fun x => k))
  (at level 61, m at next level, right associativity).

(** ** Third-party libraries

    Every call that leaves the repository goes through one field of [Env]. *)

Definition vec := list Q.

(** [faiss.IndexFlatL2(d)] after [add]: the dimension and the stored rows. *)
Record IndexFlatL2 : Type := {
  d : Z;
  xb : list vec
}.

Definition ntotal (ix : IndexFlatL2) : Z := len (xb ix).

Record Env : Type := {
  (** [str.lower] and [str.isalnum] (Unicode tables) *)
  str_lower : str -> str;
  str_isalnum : str -> bool;
  (** nltk *)
  sent_tokenize : str -> list str;
  word_tokenize : str -> list str;
  stopwords_words : str -> list str;
  (** scikit-learn: [TfidfVectorizer(stop_words='english').fit_transform],
      row [i] of the matrix; [None] when it raises ValueError *)
  fit_transform : list str -> option (nat -> list Q);
  (** sumy: [PlaintextParser.from_string(text, Tokenizer("english"))
      .document], as the list of its sentences, and the three summarizer
      objects, called with a document and a sentence count *)
  parser_document : str -> list str;
  TextRankSummarizer : list str -> Z -> list str;
  LexRankSummarizer : list str -> Z -> list str;
  LuhnSummarizer : list str -> Z -> list str;
  (** sentence-transformers: [SentenceTransformer(name).encode(text)] *)
  encode : str -> str -> vec;
  (** faiss: [index.search(q, k)], first row of distances and of labels *)
  search : IndexFlatL2 -> vec -> Z -> list Q * list Z
}.

(** ** src/algorithms/statistical.py *)

Module Statistical.

Record StatisticalSummarizer : Type := {
  method : str;
  stop_words : list str
}.

(** [np.sum] of a row, and the builtin [sum] of a list of floats. *)
Definition np_sum (row : list Q) : Q := fold_left Qplus row 0.

(** [Counter(words)] *)
Definition Counter (words : list str) : dict str nat :=
  fold_left
    (fun c w =>
       dict_update str_eqb
         (fun o => match o with Some n => S n | None => 1%nat end) w c)
    words [].

(** The two lines of [summarize] that pick the sentences:
    [sorted(scores, key=scores.get, reverse=True)[:num_sentences]] and then
    [sorted(top_indices)].  A key missing from [scores] cannot be asked for,
    since the keys sorted are those of [scores] itself. *)
Definition score_of (scores : dict nat Q) (i : nat) : Q :=
  match dict_get Nat.eqb scores i with Some v => v | None => 0 end.

Definition ranked_indices (scores : dict nat Q) : list nat :=
  sorted Qlt_bool (score_of scores) true (dict_keys scores).

Definition top_indices (scores : dict nat Q) (num_sentences : Z) : list nat :=
  sorted Nat.ltb (fun i => i) false
    (slice_to (ranked_indices scores) num_sentences).

Section WithEnv.
Variable env : Env.

Definition __init__ (method : str) : StatisticalSummarizer :=
  {| method := str_lower env method;
     stop_words := stopwords_words env (of_string "english") |}.

Definition _preprocess_text (text : str) : str :=
  strip (re_sub_ws text).

Definition _calculate_sentence_scores_tfidf (sentences : list str)
  : dict nat Q :=
  if negb (truthy sentences) then []
  else
    match fit_transform env sentences with
    | None => map (fun i => (i, 0)) (seq 0 (length sentences))
    | Some tfidf_matrix =>
        map (fun i => (i, np_sum (tfidf_matrix i))) (seq 0 (length sentences))
    end.

Definition keep_word (self : StatisticalSummarizer) (word : str) : bool :=
  str_isalnum env word && negb (existsb (str_eqb word) (stop_words self)).

Definition _calculate_sentence_scores_frequency
  (self : StatisticalSummarizer) (text : str) (sentences : list str)
  : dict nat Q :=
  let words := word_tokenize env (str_lower env text) in
  let words := filter (keep_word self) words in
  let word_freq := Counter words in
  let max_freq :=
    if truthy word_freq then list_max (dict_values word_freq) else 1%nat in
  let word_freq :=
    map (fun wf : str * nat =>
           (fst wf,
            inject_Z (Z.of_nat (snd wf)) / inject_Z (Z.of_nat max_freq)))
        word_freq in
  map (fun item : nat * str =>
         let words := word_tokenize env (str_lower env (snd item)) in
         let words := filter (keep_word self) words in
         let score :=
           np_sum (map (fun word =>
                          match dict_get str_eqb word_freq word with
                          | Some f => f
                          | None => 0
                          end) words) in
         (fst item, score))
      (enumerate sentences).

(** [summarize], returning next to the summary the list of sentences it is
    made of (a ghost value: the empty list for the empty summary, all the
    sentences when the text is returned whole, the picked ones otherwise). *)
Definition summarize_sentences
  (self : StatisticalSummarizer) (text : str) (num_sentences : Z)
  : result (str * list str) :=
  if negb (truthy text) || negb (truthy (strip text)) then Ok ([], [])
  else
    let text := _preprocess_text text in
    let sentences := sent_tokenize env text in
    if (len sentences <=? num_sentences)%Z then Ok (text, sentences)
    else
      let sentence_scores :=
        if str_eqb (method self) (of_string "tfidf")
        then _calculate_sentence_scores_tfidf sentences
        else _calculate_sentence_scores_frequency self text sentences in
      let top_indices := top_indices sentence_scores num_sentences in
      picked <- mapM (fun i => index_or_raise sentences (Z.of_nat i))
                     top_indices ;;
      Ok (join (of_string " ") picked, picked).

Definition summarize
  (self : StatisticalSummarizer) (text : str) (num_sentences : Z)
  : result str :=
  r <- summarize_sentences self text num_sentences ;; Ok (fst r).

Definition summary_sentences
  (self : StatisticalSummarizer) (text : str) (num_sentences : Z)
  : result (list str) :=
  r <- summarize_sentences self text num_sentences ;; Ok (snd r).

Definition summarize_batch
  (self : StatisticalSummarizer) (texts : list str) (num_sentences : Z)
  : result (list str) :=
  mapM (fun text => summarize self text num_sentences) texts.

End WithEnv.

Definition get_available_methods : list str :=
  [of_string "tfidf"; of_string "frequency"].

Definition create_summarizer (env : Env) (method : str)
  : StatisticalSummarizer :=
  __init__ env method.

End Statistical.

(** ** src/algorithms/extractive.py *)

Module Extractive.

Record ExtractiveSummarizer : Type := {
  algorithm : str;
  summarizer : list str -> Z -> list str
}.

Section WithEnv.
Variable env : Env.

Definition _get_summarizer (algorithm : str)
  : result (list str -> Z -> list str) :=
  if str_eqb algorithm (of_string "textrank") then
    Ok (TextRankSummarizer env)
  else if str_eqb algorithm (of_string "lexrank") then
    Ok (LexRankSummarizer env)
  else if str_eqb algorithm (of_string "luhn") then
    Ok (LuhnSummarizer env)
  else Raise (ValueError (of_string "Unknown algorithm: " ++ algorithm)).

Definition __init__ (algorithm : str) : result ExtractiveSummarizer :=
  let algorithm := str_lower env algorithm in
  summarizer <- _get_summarizer algorithm ;;
  Ok {| algorithm := algorithm; summarizer := summarizer |}.

(** [summarize] with the sentences of the summary as a ghost value. *)
Definition summarize_sentences
  (self : ExtractiveSummarizer) (text : str) (num_sentences : Z)
  : result (str * list str) :=
  if negb (truthy text) || negb (truthy (strip text)) then Ok ([], [])
  else
    let document := parser_document env text in
    let summary_sentences := summarizer self document num_sentences in
    let summary := join (of_string " ") summary_sentences in
    Ok (summary, summary_sentences).

Definition summarize
  (self : ExtractiveSummarizer) (text : str) (num_sentences : Z)
  : result str :=
  r <- summarize_sentences self text num_sentences ;; Ok (fst r).

Definition summary_sentences
  (self : ExtractiveSummarizer) (text : str) (num_sentences : Z)
  : result (list str) :=
  r <- summarize_sentences self text num_sentences ;; Ok (snd r).

Definition summarize_batch
  (self : ExtractiveSummarizer) (texts : list str) (num_sentences : Z)
  : result (list str) :=
  mapM (fun text => summarize self text num_sentences) texts.

Definition create_summarizer (algorithm : str) : result ExtractiveSummarizer :=
  __init__ algorithm.

End WithEnv.

Definition get_available_algorithms : list str :=
  [of_string "textrank"; of_string "lexrank"; of_string "luhn"].

End Extractive.

(** ** src/rag/embeddings.py *)

Module Embeddings.

Record EmbeddingModel : Type := {
  model_name : str;
  model : option (str -> vec)
}.

Definition __init__ (model_name : str) : EmbeddingModel :=
  {| model_name := model_name; model := None |}.

Definition not_loaded : exn :=
  ValueError (of_string "Model not loaded. Call load_model() first.").

Definition load_model (env : Env) (self : EmbeddingModel) : EmbeddingModel :=
  {| model_name := model_name self;
     model := Some (encode env (model_name self)) |}.

Definition embed_text (self : EmbeddingModel) (text : str) : result vec :=
  match model self with
  | None => Raise not_loaded
  | Some m => Ok (m text)
  end.

Definition embed_batch (self : EmbeddingModel) (texts : list str)
  : result (list vec) :=
  match model self with
  | None => Raise not_loaded
  | Some m => Ok (map m texts)
  end.

Definition create_embedding_model (env : Env) (model_name : str)
  : EmbeddingModel :=
  load_model env (__init__ model_name).

End Embeddings.

(** ** src/rag/retrieval.py

    A method that can assign to [self] returns the object after the call
    next to its result, also when it raises. *)

Module Retrieval.

Import Embeddings.

Definition meta := dict str str.
Definition hit : Type := str * Q * meta.

Record VectorRetriever : Type := {
  embedding_model : EmbeddingModel;
  index : option IndexFlatL2;
  documents : list str;
  metadata : list meta
}.

Definition __init__ (embedding_model : EmbeddingModel) : VectorRetriever :=
  {| embedding_model := embedding_model;
     index := None;
     documents := [];
     metadata := [] |}.

Definition empty_corpus : exn :=
  ValueError (of_string "Cannot build index from empty document list").

Definition not_built : exn :=
  ValueError (of_string "Index not built. Call build_index() first.").

(** [embeddings.shape[1]]: the length of a row. *)
Definition shape1 (embeddings : list vec) : Z :=
  match embeddings with
  | [] => 0
  | row :: _ => len row
  end.

Definition build_index
  (self : VectorRetriever) (documents : list str)
  (metadata : option (list meta)) : result unit * VectorRetriever :=
  if negb (truthy documents) then (Raise empty_corpus, self)
  else
    let metadata :=
      match metadata with
      | Some m => if truthy m then m else map (fun _ => []) documents
      | None => map (fun _ => []) documents
      end in
    let self :=
      {| embedding_model := embedding_model self;
         index := index self;
         documents := documents;
         metadata := metadata |} in
    match embed_batch (embedding_model self) documents with
    | Raise e => (Raise e, self)
    | Ok embeddings =>
        let dimension := shape1 embeddings in
        (Ok tt,
         {| embedding_model := embedding_model self;
            index := Some {| d := dimension; xb := embeddings |};
            documents := Retrieval.documents self;
            metadata := Retrieval.metadata self |})
    end.

(** The dictionary of [get_index_stats]. *)
Inductive IndexStats : Type :=
| stats_not_built
| stats_ready (num_vectors dimension num_documents : Z).

Definition get_index_stats (self : VectorRetriever) : IndexStats :=
  match index self with
  | None => stats_not_built
  | Some ix => stats_ready (ntotal ix) (d ix) (len (documents self))
  end.

(** The body of the loop over [zip(distances[0], indices[0])]. *)
Fixpoint collect (documents : list str) (metadata : list meta)
  (found : list (Q * Z)) : result (list hit) :=
  match found with
  | [] => Ok []
  | (dist, idx) :: rest =>
      if (idx <? len documents)%Z then
        doc <- index_or_raise documents idx ;;
        m <- index_or_raise metadata idx ;;
        results <- collect documents metadata rest ;;
        Ok ((doc, 1 / (1 + dist), m) :: results)
      else collect documents metadata rest
  end.

Section WithEnv.
Variable env : Env.

Definition retrieve (self : VectorRetriever) (query : str) (top_k : Z)
  : result (list hit) * VectorRetriever :=
  match index self with
  | None => (Raise not_built, self)
  | Some ix =>
      match embed_text (embedding_model self) query with
      | Raise e => (Raise e, self)
      | Ok query_embedding =>
          let (distances, indices) :=
            search env ix query_embedding
                   (Z.min top_k (len (documents self))) in
          (collect (documents self) (metadata self)
                   (combine distances indices),
           self)
      end
  end.

End WithEnv.

Definition create_retriever
  (embedding_model : EmbeddingModel) (documents : list str)
  (metadata : option (list meta)) : result VectorRetriever :=
  let retriever := __init__ embedding_model in
  match build_index retriever documents metadata with
  | (Ok _, retriever) => Ok retriever
  | (Raise e, _) => Raise e
  end.

End Retrieval.

(** ** src/rag/pipeline.py *)

Module Pipeline.

Import Embeddings Retrieval.

Record RAGPipeline : Type := {
  embedding_model : EmbeddingModel;
  retriever : option VectorRetriever;
  extractive_summarizer : Extractive.ExtractiveSummarizer;
  statistical_summarizer : Statistical.StatisticalSummarizer
}.

(** The dictionary [query_and_summarize] returns; an entry of
    ["retrieved_documents"] is the triple (text, similarity, metadata). *)
Record Response : Type := {
  query : str;
  retrieved_documents : list hit;
  summary : str;
  num_retrieved : Z
}.

Record Comparison : Type := {
  cmp_query : str;
  retrieved_count : Z;
  retrieval_scores : list Q;
  summaries_extractive : str;
  summaries_statistical : str;
  cmp_retrieved_documents : list hit
}.

Definition not_indexed : exn :=
  ValueError (of_string "Documents not indexed. Call index_documents() first.").

Definition set_retriever (self : RAGPipeline) (r : option VectorRetriever)
  : RAGPipeline :=
  {| embedding_model := embedding_model self;
     retriever := r;
     extractive_summarizer := extractive_summarizer self;
     statistical_summarizer := statistical_summarizer self |}.

Section WithEnv.
Variable env : Env.

Definition __init__ (embedding_model : EmbeddingModel) : result RAGPipeline :=
  extractive <- Extractive.__init__ env (of_string "textrank") ;;
  Ok {| embedding_model := embedding_model;
        retriever := None;
        extractive_summarizer := extractive;
        statistical_summarizer := Statistical.__init__ env (of_string "tfidf") |}.

Definition index_documents
  (self : RAGPipeline) (documents : list str) (metadata : option (list meta))
  : result unit * RAGPipeline :=
  match create_retriever (embedding_model self) documents metadata with
  | Ok r => (Ok tt, set_retriever self (Some r))
  | Raise e => (Raise e, self)
  end.

Definition query_and_summarize
  (self : RAGPipeline) (query : str) (top_k : Z) (num_sentences : Z)
  (summarization_method : str) : result Response * RAGPipeline :=
  match retriever self with
  | None => (Raise not_indexed, self)
  | Some r =>
      let (retrieved, r) := retrieve env r query top_k in
      let self := set_retriever self (Some r) in
      match retrieved with
      | Raise e => (Raise e, self)
      | Ok results =>
          let retrieved_texts := map (fun h : hit => fst (fst h)) results in
          let combined_text := join (of_string " ") retrieved_texts in
          let summarized :=
            if str_eqb summarization_method (of_string "extractive")
            then Extractive.summarize env (extractive_summarizer self)
                   combined_text num_sentences
            else Statistical.summarize env (statistical_summarizer self)
                   combined_text num_sentences in
          match summarized with
          | Raise e => (Raise e, self)
          | Ok summary =>
              (Ok {| query := query;
                     retrieved_documents := results;
                     summary := summary;
                     num_retrieved := len results |},
               self)
          end
      end
  end.

Definition compare_methods
  (self : RAGPipeline) (query : str) (top_k : Z) (num_sentences : Z)
  : result Comparison * RAGPipeline :=
  match retriever self with
  | None => (Raise not_indexed, self)
  | Some r =>
      let (retrieved, r) := retrieve env r query top_k in
      let self := set_retriever self (Some r) in
      match retrieved with
      | Raise e => (Raise e, self)
      | Ok results =>
          let retrieved_texts := map (fun h : hit => fst (fst h)) results in
          let combined_text := join (of_string " ") retrieved_texts in
          match Extractive.summarize env (extractive_summarizer self)
                  combined_text num_sentences with
          | Raise e => (Raise e, self)
          | Ok extractive_summary =>
              match Statistical.summarize env (statistical_summarizer self)
                      combined_text num_sentences with
              | Raise e => (Raise e, self)
              | Ok statistical_summary =>
                  (Ok {| cmp_query := query;
                         retrieved_count := len results;
                         retrieval_scores :=
                           map (fun h : hit => snd (fst h)) results;
                         summaries_extractive := extractive_summary;
                         summaries_statistical := statistical_summary;
                         cmp_retrieved_documents := results |},
                   self)
              end
          end
      end
  end.

Definition create_rag_pipeline (model_name : str) : result RAGPipeline :=
  __init__ (create_embedding_model env model_name).

End WithEnv.

End Pipeline.

(** ** The behaviour of sumy and faiss the program builds on

    Neither library is part of the repository.  What follows describes the
    part of their behaviour that decides what [summarize] and [retrieve]
    return. *)

Module Sumy.

(** [str.splitlines]: the line boundaries of Python, a carriage return
    followed by a line feed counting once. *)
Definition is_linebreak (c : char) : bool :=
  (((10 <=? c) && (c <=? 13)) || ((28 <=? c) && (c <=? 30))
   || (c =? 133) || (c =? 8232) || (c =? 8233))%N.

Fixpoint splitlines_from (current : str) (s : str) : list str :=
  match s with
  | [] => if truthy current then [rev current] else []
  | c :: s' =>
      if is_linebreak c
      then rev current ::
           match s' with
           | c' :: s'' =>
               if ((c =? 13) && (c' =? 10))%N
               then splitlines_from [] s''
               else splitlines_from [] s'
           | [] => []
           end
      else splitlines_from (c :: current) s'
  end.

Definition splitlines (s : str) : list str := splitlines_from [] s.

(** [PlaintextParser._to_sentences]: the lines gathered for a paragraph,
    each marked as a heading or not; [text] is the text of the ordinary
    lines read since the last heading.  The result marks the headings among
    the sentences. *)
Fixpoint _to_sentences (tokenize : str -> list str)
  (lines : list (bool * str)) (text : str) : list (bool * str) :=
  match lines with
  | [] =>
      let text := strip text in
      if truthy text then map (pair false) (tokenize text) else []
  | (true, heading) :: lines' =>
      (if truthy text then map (pair false) (tokenize text) else [])
      ++ (true, heading) :: _to_sentences tokenize lines' []
  | (false, line) :: lines' =>
      _to_sentences tokenize lines' (text ++ of_string " " ++ line)
  end.

(** The loop of [PlaintextParser.document] over the lines of the text: a
    line in upper case is a heading, an empty line ends the paragraph. *)
Fixpoint document_loop (isupper : str -> bool) (tokenize : str -> list str)
  (lines : list str) (current_paragraph : list (bool * str))
  (paragraphs : list (list (bool * str))) : list (list (bool * str)) :=
  match lines with
  | [] => paragraphs ++ [_to_sentences tokenize current_paragraph []]
  | line :: lines' =>
      let line := strip line in
      if isupper line then
        document_loop isupper tokenize lines'
          (current_paragraph ++ [(true, line)]) paragraphs
      else if negb (truthy line) && truthy current_paragraph then
        document_loop isupper tokenize lines' []
          (paragraphs ++ [_to_sentences tokenize current_paragraph []])
      else if truthy line then
        document_loop isupper tokenize lines'
          (current_paragraph ++ [(false, line)]) paragraphs
      else document_loop isupper tokenize lines' current_paragraph paragraphs
  end.

(** [PlaintextParser.from_string(text, tokenizer).document.sentences]: the
    sentences of all paragraphs, headings left out. *)
Definition document_sentences (isupper : str -> bool)
  (tokenize : str -> list str) (text : str) : list str :=
  map snd
    (filter (fun sentence : bool * str => negb (fst sentence))
       (concat (document_loop isupper tokenize (splitlines text) [] []))).

(** Modelled from the spec: the selection step of the sumy summarizers,
    which the repository calls at extractive.py:72 and does not contain
    ("pick the [num_sentences] highest-scoring sentence indices, THEN
    re-sort the selected indices by their original position").  Every
    sentence is rated, the sentences are sorted by descending rating (a
    stable sort), the first [count] are kept (the slice [[:count]]), and
    these are sorted back into document order. *)
Definition _get_best_sentences (rate : str -> Q)
  (sentences : list str) (count : Z) : list str :=
  let infos := enumerate sentences in
  let infos := sorted Qlt_bool (fun info => rate (snd info)) true infos in
  let infos := slice_to infos count in
  let infos := sorted Nat.ltb (fun info : nat * str => fst info) false infos in
  map snd infos.

End Sumy.

Module Faiss.

(** The squared Euclidean distance [IndexFlatL2] reports. *)
Definition L2sqr (x y : vec) : Q :=
  Statistical.np_sum
    (map (fun p : Q * Q => (fst p - snd p) * (fst p - snd p)) (combine x y)).

(** Modelled from the spec: the search of the flat index, which the
    repository calls at retrieval.py:82 and does not contain (an "exact
    brute-force or flat index", "ties broken by ascending original
    insertion order").  Every stored row is compared with the query, the
    rows are sorted by ascending distance (rows at the same distance stay
    in insertion order), and the first [k] are returned as a row of
    distances and a row of labels. *)
Definition IndexFlatL2_search (ix : IndexFlatL2) (q : vec) (k : Z)
  : list Q * list Z :=
  let scored :=
    map (fun row : nat * vec => (L2sqr q (snd row), Z.of_nat (fst row)))
        (enumerate (xb ix)) in
  let best :=
    firstn (Z.to_nat k)
      (sorted Qlt_bool (fun p : Q * Z => fst p) false scored) in
  (map fst best, map snd best).

End Faiss.

(** ** Inputs and what the program relies on from sumy and faiss *)

(** The text is empty or consists of whitespace only. *)
Definition blank (text : str) : bool := forallb isspace text.

(** The test at the top of both [summarize] methods,
    [not text or not text.strip()]. *)
Definition guard (text : str) : bool :=
  negb (truthy text) || negb (truthy (strip text)).

(** [picked] are sentences of [sentences] taken at strictly increasing
    positions. *)
Definition in_source_order (sentences picked : list str) : Prop :=
  exists positions : list nat,
    StronglySorted lt positions /\
    Forall2 (fun i s => nth_error sentences i = Some s) positions picked.

(** A sumy summarizer selects by rating: on every document it returns, for
    some rating of the sentences, what [Sumy._get_best_sentences] returns
    for every count. *)
Definition sumy_selects (summarizer : list str -> Z -> list str) : Prop :=
  forall document : list str,
    exists rate : str -> Q,
      forall count : Z,
        summarizer document count
        = Sumy._get_best_sentences rate document count.

Definition sumy_contract (env : Env) : Prop :=
  sumy_selects (TextRankSummarizer env) /\
  sumy_selects (LexRankSummarizer env) /\
  sumy_selects (LuhnSummarizer env).

(** An exact flat index asked for [k] neighbours, [0 < k <= ntotal], answers
    with [k] labels of stored rows and their distances, which are not
    negative and come in ascending order.  Nothing is said about the order
    of neighbours at the same distance. *)
Definition faiss_contract (env : Env) : Prop :=
  forall (ix : IndexFlatL2) (q : vec) (k : Z),
    (0 < k <= ntotal ix)%Z ->
    length (fst (search env ix q k)) = Z.to_nat k /\
    length (snd (search env ix q k)) = Z.to_nat k /\
    Forall (fun i => 0 <= i < ntotal ix)%Z (snd (search env ix q k)) /\
    Forall (fun dist => 0 <= dist) (fst (search env ix q k)) /\
    StronglySorted Qle (fst (search env ix q k)).

(** The index search of the environment is the exact search of the flat
    index, for every [k] the index can answer. *)
Definition faiss_exact (env : Env) : Prop :=
  forall (ix : IndexFlatL2) (q : vec) (k : Z),
    (0 < k <= ntotal ix)%Z ->
    search env ix q k = Faiss.IndexFlatL2_search ix q k.

(** The metadata given to [build_index] is absent, empty, or has an entry
    for every document. *)
Definition metadata_matches (documents : list str)
  (metadata : option (list Retrieval.meta)) : Prop :=
  match metadata with
  | None => True
  | Some m => m = [] \/ (length documents <= length m)%nat
  end.

Definition similarity (h : Retrieval.hit) : Q := snd (fst h).

(** How an entry of the result of [retrieve] relates to the neighbour
    (distance, label) it comes from. *)
Definition renders (docs : list str) (metas : list Retrieval.meta)
  (found : Q * Z) (h : Retrieval.hit) : Prop :=
  getitem docs (snd found) = Some (fst (fst h)) /\
  similarity h = 1 / (1 + fst found) /\
  getitem metas (snd found) = Some (snd h).


(** The neighbours the index search returns for a query embedding. *)
Definition neighbours (env : Env) (ix : IndexFlatL2) (q : vec) (k : Z)
  : list (Q * Z) :=
  combine (fst (search env ix q k)) (snd (search env ix q k)).



(** ** A reference environment

    Small executable stand-ins for the tokenizers, the vectorizer, the
    ratings and the encoder, used to run the program on concrete inputs;
    the parser, the selection and the index search are those described
    above. *)

Module Reference.

Definition lower_char (c : char) : char :=
  if ((65 <=? c) && (c <=? 90))%N then (c + 32)%N else c.

Definition lower (s : str) : str := map lower_char s.

Definition isalnum_char (c : char) : bool :=
  (((48 <=? c) && (c <=? 57)) || ((65 <=? c) && (c <=? 90))
   || ((97 <=? c) && (c <=? 122)))%N.

Definition isalnum (s : str) : bool := truthy s && forallb isalnum_char s.

(** ['.'], ['!'] and ['?'] end a sentence. *)
Definition ends_sentence (c : char) : bool :=
  ((c =? 46) || (c =? 33) || (c =? 63))%N.

Definition push (piece : str) (pieces : list str) : list str :=
  if truthy (strip piece) then strip piece :: pieces else pieces.

Fixpoint split_sentences (current : str) (s : str) : list str :=
  match s with
  | [] => push (rev current) []
  | c :: s' =>
      if ends_sentence c
      then push (rev (c :: current)) (split_sentences [] s')
      else split_sentences (c :: current) s'
  end.

Fixpoint split_words (current : str) (s : str) : list str :=
  match s with
  | [] => push (rev current) []
  | c :: s' =>
      if isspace c
      then push (rev current) (split_words [] s')
      else split_words (c :: current) s'
  end.

Definition stopwords : list str :=
  map of_string ["the"; "is"; "a"; "an"; "of"; "and"]%string.

Definition tfidf (sentences : list str) : option (nat -> list Q) :=
  if forallb (fun s => negb (truthy s)) sentences then None
  else Some (fun i => [inject_Z (len (nth i sentences []))]).

(** [str.isupper] on ASCII text: some letter, and no letter in lower
    case. *)
Definition isupper (s : str) : bool :=
  existsb (fun c => (65 <=? c) && (c <=? 90))%N s
  && negb (existsb (fun c => (97 <=? c) && (c <=? 122))%N s).

Definition count_char (c : char) (s : str) : Z :=
  len (filter (char_eqb c) s).

Definition embed (name text : str) : vec :=
  [inject_Z (len text); inject_Z (count_char 97%N text)].

Definition env : Env :=
  {| str_lower := lower;
     str_isalnum := isalnum;
     sent_tokenize := split_sentences [];
     word_tokenize := split_words [];
     stopwords_words := fun _ => stopwords;
     fit_transform := tfidf;
     parser_document := Sumy.document_sentences isupper (split_sentences []);
     TextRankSummarizer :=
       Sumy._get_best_sentences (fun s => inject_Z (len s));
     LexRankSummarizer :=
       Sumy._get_best_sentences (fun s => inject_Z (count_char SPACE s));
     LuhnSummarizer := Sumy._get_best_sentences (fun _ => 0);
     encode := embed;
     search := Faiss.IndexFlatL2_search |}.

(** Sample data. *)
Definition text7 : str :=
  of_string "One. Two two. Three three three. Four. Five five. Six. Seven seven seven seven.".

Definition corpus : list str :=
  [of_string "AI helps doctors. It reads scans.";
   of_string "Qubits are fragile. They decohere.";
   of_string "Attackers adapt fast. Defend in depth."].

Definition twins : list str := [of_string "x"; of_string "y"].

Definition loaded : Embeddings.EmbeddingModel :=
  Embeddings.create_embedding_model env (of_string "all-MiniLM-L6-v2").

Definition tfidf_summarizer : Statistical.StatisticalSummarizer :=
  Statistical.__init__ env (of_string "tfidf").

Definition textrank_summarizer : Extractive.ExtractiveSummarizer :=
  {| Extractive.algorithm := of_string "textrank";
     Extractive.summarizer := TextRankSummarizer env |}.

Definition fresh_retriever : Retrieval.VectorRetriever :=
  Retrieval.__init__ loaded.

Definition built_retriever : Retrieval.VectorRetriever :=
  snd (Retrieval.build_index fresh_retriever corpus None).

(** One metadata entry, fewer than either sample has documents. *)
Definition one_meta : list Retrieval.meta :=
  [[(of_string "title", of_string "AI in Healthcare")]].


Definition short_meta_twins : Retrieval.VectorRetriever :=
  snd (Retrieval.build_index fresh_retriever twins (Some one_meta)).

Definition fresh_pipeline : Pipeline.RAGPipeline :=
  {| Pipeline.embedding_model := loaded;
     Pipeline.retriever := None;
     Pipeline.extractive_summarizer := textrank_summarizer;
     Pipeline.statistical_summarizer := tfidf_summarizer |}.

Definition indexed_pipeline : Pipeline.RAGPipeline :=
  snd (Pipeline.index_documents fresh_pipeline corpus None).

End Reference.

(** ** src/utils/data.py and src/algorithms/metrics.py *)

(** [s.split()]: the maximal runs of code points that are not whitespace.
    [current] holds, reversed, the word being read. *)
Fixpoint split_from (current : str) (s : str) : list str :=
  match s with
  | [] => if truthy current then [rev current] else []
  | c :: s' =>
      if isspace c
      then (if truthy current
            then rev current :: split_from [] s'
            else split_from [] s')
      else split_from (c :: current) s'
  end.

Definition split (s : str) : list str := split_from [] s.

Module Data.

(** [text] is always a [str] here, so the [isinstance] test passes. *)
Definition validate_text (text : str) : bool :=
  let text := strip text in
  if negb (truthy text) then false
  else
    let words := split text in
    if (len words <? 10)%Z then false else true.

Definition clean_text (text : str) : str :=
  let text := re_sub_ws text in
  let text := strip text in
  text.

(** The loop of [chunk_text] over [words], and what follows it. *)
Fixpoint chunk_loop (max_chunk_size : Z) (words : list str)
  (chunks : list str) (current_chunk : list str) : list str :=
  match words with
  | [] =>
      if truthy current_chunk
      then chunks ++ [join (of_string " ") current_chunk]
      else chunks
  | word :: words' =>
      let current_chunk := current_chunk ++ [word] in
      if (len current_chunk >=? max_chunk_size)%Z
      then chunk_loop max_chunk_size words'
             (chunks ++ [join (of_string " ") current_chunk]) []
      else chunk_loop max_chunk_size words' chunks current_chunk
  end.

Definition chunk_text (text : str) (max_chunk_size : Z) : list str :=
  let words := split text in
  if (len words <=? max_chunk_size)%Z then [text]
  else chunk_loop max_chunk_size words [] [].

(** What [load_sample_articles] can raise. *)
Inductive load_error : Type :=
| FileNotFoundError (msg : str)
| CsvValueError (msg : str).

(** [a < b] on [str]: code point by code point, a proper prefix first. *)
Fixpoint str_ltb (a b : str) : bool :=
  match a, b with
  | _, [] => false
  | [], _ :: _ => true
  | x :: a', y :: b' => ((x <? y) || ((x =? y) && str_ltb a' b'))%N
  end.

(** The elements of [set(l)], each once.  The order in which a Python set
    lists them is not fixed; here it is that of their last occurrence. *)
Fixpoint distinct (l : list str) : list str :=
  match l with
  | [] => []
  | x :: l' =>
      if existsb (str_eqb x) l' then distinct l' else x :: distinct l'
  end.

Section WithLoader.
(** [load_sample_articles] reads a CSV file through pandas; it is taken as
    given: either an error, or the titles, contents and categories. *)
Variable load_sample_articles :
  option str -> load_error + (list str * list str * list str).

(** The loop of [load_articles_by_category]. *)
Fixpoint filter_loop (category : str) (rows : list (str * str * str))
  (filtered_titles filtered_contents : list str) : list str * list str :=
  match rows with
  | [] => (filtered_titles, filtered_contents)
  | (title, content, cat) :: rows' =>
      if str_eqb cat category
      then filter_loop category rows'
             (filtered_titles ++ [title]) (filtered_contents ++ [content])
      else filter_loop category rows' filtered_titles filtered_contents
  end.

Definition load_articles_by_category (category : str)
  (csv_path : option str) : load_error + (list str * list str) :=
  match load_sample_articles csv_path with
  | inl e => inl e
  | inr (titles, contents, categories) =>
      inr (filter_loop category
             (combine (combine titles contents) categories) [] [])
  end.

Definition get_available_categories (csv_path : option str)
  : load_error + list str :=
  match load_sample_articles csv_path with
  | inl e => inl e
  | inr (_, _, categories) =>
      inr (sorted str_ltb (fun c : str => c) false (distinct categories))
  end.

End WithLoader.

(** A loader that knows one file. *)
Definition sample_loader (csv_path : option str)
  : load_error + (list str * list str * list str) :=
  match csv_path with
  | None =>
      inr ([of_string "T1"; of_string "T2"; of_string "T3"],
           [of_string "C1"; of_string "C2"; of_string "C3"],
           [of_string "AI/ML"; of_string "Quantum"; of_string "AI/ML"])
  | Some path => inl (FileNotFoundError (of_string "CSV file not found"))
  end.

End Data.

Module Metrics.

Record metrics : Type := {
  compression_ratio : Q;
  original_sentences : Z;
  summary_sentences : Z;
  original_words : Z;
  summary_words : Z;
  original_avg_sentence_length : Q;
  summary_avg_sentence_length : Q
}.

Section WithEnv.
Variable env : Env.

Definition calculate_compression_ratio (original summary : str) : Q :=
  if negb (truthy original) || negb (truthy summary) then 0
  else
    let original_words := len (word_tokenize env original) in
    let summary_words := len (word_tokenize env summary) in
    if (original_words >? 0)%Z
    then inject_Z summary_words / inject_Z original_words
    else 0.

Definition calculate_sentence_count (text : str) : Z :=
  if negb (truthy text) || negb (truthy (strip text)) then 0%Z
  else len (sent_tokenize env text).

Definition calculate_word_count (text : str) : Z :=
  if negb (truthy text) || negb (truthy (strip text)) then 0%Z
  else len (word_tokenize env text).

Definition calculate_average_sentence_length (text : str) : Q :=
  if negb (truthy text) || negb (truthy (strip text)) then 0
  else
    let sentences := sent_tokenize env text in
    if negb (truthy sentences) then 0
    else
      let total_words :=
        fold_left Z.add
          (map (fun sent => len (word_tokenize env sent)) sentences) 0%Z in
      inject_Z total_words / inject_Z (len sentences).

Definition calculate_metrics (original summary : str) : metrics :=
  {| compression_ratio := calculate_compression_ratio original summary;
     original_sentences := calculate_sentence_count original;
     summary_sentences := calculate_sentence_count summary;
     original_words := calculate_word_count original;
     summary_words := calculate_word_count summary;
     original_avg_sentence_length :=
       calculate_average_sentence_length original;
     summary_avg_sentence_length :=
       calculate_average_sentence_length summary |}.

End WithEnv.

End Metrics.

(** ** Notions used to state further properties *)

(** A word as [split] yields them: not empty, no whitespace inside. *)
Definition is_word (w : str) : bool :=
  truthy w && forallb (fun c => negb (isspace c)) w.

(** No whitespace other than single spaces between two other code points:
    [after_space] says that the code point before was a space. *)
Fixpoint single_spaced (after_space : bool) (s : str) : bool :=
  match s with
  | [] => true
  | c :: s' =>
      if isspace c
      then char_eqb c SPACE && negb after_space && single_spaced true s'
      else single_spaced false s'
  end.

(** The tokens of a sentence that the frequency method counts. *)
Definition kept_words (env : Env) (self : Statistical.StatisticalSummarizer)
  (sentence : str) : list str :=
  filter (Statistical.keep_word env self)
         (word_tokenize env (str_lower env sentence)).

(** Sentence [i] ranks before sentence [j]: a higher score, or the same
    score and an earlier position. *)
Definition outranks (scores : dict nat Q) (i j : nat) : Prop :=
  Statistical.score_of scores j < Statistical.score_of scores i \/
  (Statistical.score_of scores j == Statistical.score_of scores i /\
   (i < j)%nat).

(** The words of all chunks, one after the other. *)
Definition words_of_chunks (chunks : list str) : list str :=
  concat (map split chunks).

(** The reference environment with a vectorizer that finds no vocabulary
    (every token a stop word): [fit_transform] raises ValueError. *)
Definition env_no_vocabulary : Env :=
  {| str_lower := Reference.lower;
     str_isalnum := Reference.isalnum;
     sent_tokenize := Reference.split_sentences [];
     word_tokenize := Reference.split_words [];
     stopwords_words := fun _ => Reference.stopwords;
     fit_transform := fun _ => None;
     parser_document :=
       Sumy.document_sentences Reference.isupper
         (Reference.split_sentences []);
     TextRankSummarizer :=
       Sumy._get_best_sentences (fun s => inject_Z (len s));
     LexRankSummarizer :=
       Sumy._get_best_sentences
         (fun s => inject_Z (Reference.count_char SPACE s));
     LuhnSummarizer := Sumy._get_best_sentences (fun _ => 0);
     encode := Reference.embed;
     search := Faiss.IndexFlatL2_search |}.

Definition frequency_summarizer : Statistical.StatisticalSummarizer :=
  Statistical.__init__ (Reference.env) (of_string "frequency").

Definition unloaded_retriever : Retrieval.VectorRetriever :=
  Retrieval.__init__
    (Embeddings.__init__ (of_string "all-MiniLM-L6-v2")).

(** * Properties *)

(** ** Strings *)

Lemma lstrip_blank (s : str) : blank s = true -> lstrip s = [].
Proof.
  induction s as [|c s IH]; simpl; [reflexivity|].
  intros H. apply andb_prop in H. destruct H as [Hc Hs].
  rewrite Hc. auto.
Qed.

Lemma lstrip_head (s : str) (c : char) (rest : str) :
  lstrip s = c :: rest -> isspace c = false.
Proof.
  induction s as [|a s IH]; simpl; [discriminate|].
  destruct (isspace a) eqn:Ha; [exact IH|].
  intros H. injection H as -> _. exact Ha.
Qed.

Lemma lstrip_nil_blank (s : str) : lstrip s = [] -> blank s = true.
Proof.
  induction s as [|a s IH]; simpl; [reflexivity|].
  destruct (isspace a); [auto | discriminate].
Qed.

Lemma blank_app (s t : str) : blank (s ++ t) = blank s && blank t.
Proof. apply forallb_app. Qed.

Lemma blank_rev (s : str) : blank (rev s) = blank s.
Proof.
  induction s as [|a s IH]; simpl; [reflexivity|].
  rewrite blank_app, IH. simpl. rewrite andb_true_r. apply andb_comm.
Qed.

Lemma rev_nil_inv {A} (l : list A) : rev l = [] -> l = [].
Proof.
  intros H. rewrite <- (rev_involutive l), H. reflexivity.
Qed.

(** [strip] leaves nothing exactly when the text is blank. *)
Lemma strip_nil_iff (s : str) : strip s = [] <-> blank s = true.
Proof.
  unfold strip, rstrip. split.
  - intros H. apply rev_nil_inv in H. apply lstrip_nil_blank in H.
    rewrite blank_rev in H.
    destruct (lstrip s) as [|c rest] eqn:E.
    + apply lstrip_nil_blank. exact E.
    + apply lstrip_head in E. simpl in H. rewrite E in H. discriminate.
  - intros H. rewrite (lstrip_blank s H). reflexivity.
Qed.

Lemma sub_ws_blank (s : str) (in_run : bool) :
  blank s = true -> blank (sub_ws in_run s) = true.
Proof.
  revert in_run. induction s as [|c s IH]; intros in_run; simpl; [auto|].
  intros H. apply andb_prop in H. destruct H as [Hc Hs].
  rewrite Hc. destruct in_run; simpl; auto.
Qed.

Lemma guard_blank (text : str) : guard text = blank text.
Proof.
  unfold guard. destruct text as [|c text]; [reflexivity|].
  cbn [truthy negb orb].
  destruct (strip (c :: text)) as [|x rest] eqn:E.
  - symmetry. apply strip_nil_iff. exact E.
  - simpl truthy. simpl negb.
    destruct (blank (c :: text)) eqn:B; [|reflexivity].
    apply strip_nil_iff in B. congruence.
Qed.

Lemma preprocess_blank (text : str) :
  blank text = true -> Statistical._preprocess_text text = [].
Proof.
  intros H. unfold Statistical._preprocess_text, re_sub_ws.
  apply strip_nil_iff. apply sub_ws_blank. exact H.
Qed.

(** ** The stable sort *)

Section SortedFacts.
Variables (A K : Type) (lt : K -> K -> bool) (key : A -> K).
Variable reverse : bool.

Let ins := insert lt key reverse.
Let srt := sorted lt key reverse.

Lemma insert_perm (x : A) (l : list A) : Permutation (ins x l) (x :: l).
Proof.
  induction l as [|y l IH]; simpl; [reflexivity|].
  destruct (goes_before lt key reverse y x).
  - rewrite IH. apply perm_swap.
  - reflexivity.
Qed.

Lemma sorted_perm (l : list A) : Permutation (srt l) l.
Proof.
  induction l as [|x l IH]; simpl; [reflexivity|].
  unfold srt in *. simpl.
  etransitivity; [apply insert_perm|]. apply perm_skip. exact IH.
Qed.

Lemma sorted_length (l : list A) : length (srt l) = length l.
Proof. apply Permutation_length, sorted_perm. Qed.

Variable R : A -> A -> Prop.
Hypothesis R_trans : forall a b c, R a b -> R b c -> R a c.
Hypothesis before_R :
  forall y x, goes_before lt key reverse y x = true -> R y x.
Hypothesis not_before_R :
  forall y x, goes_before lt key reverse y x = false -> R x y.

Lemma insert_sorted (x : A) (l : list A) :
  StronglySorted R l -> StronglySorted R (ins x l).
Proof.
  induction 1 as [|y l Hl IH Hy]; simpl.
  - repeat constructor.
  - destruct (goes_before lt key reverse y x) eqn:E.
    + constructor; [exact IH|].
      apply (Permutation_Forall (Permutation_sym (insert_perm x l))).
      constructor; [apply before_R; exact E | exact Hy].
    + constructor; [constructor; assumption|].
      constructor; [apply not_before_R; exact E|].
      apply Forall_forall. intros z Hz.
      apply R_trans with y; [apply not_before_R; exact E|].
      rewrite Forall_forall in Hy. apply Hy. exact Hz.
Qed.

Lemma sorted_sorted (l : list A) : StronglySorted R (srt l).
Proof.
  induction l as [|x l IH]; [constructor|].
  unfold srt in *. simpl. apply insert_sorted. exact IH.
Qed.

End SortedFacts.

Lemma NoDup_firstn {A} (n : nat) (l : list A) : NoDup l -> NoDup (firstn n l).
Proof.
  intros H. rewrite <- (firstn_skipn n l) in H.
  apply NoDup_app_remove_r in H. exact H.
Qed.

Lemma In_firstn {A} (n : nat) (l : list A) (x : A) :
  In x (firstn n l) -> In x l.
Proof.
  intros H. rewrite <- (firstn_skipn n l). apply in_or_app. left. exact H.
Qed.

Lemma slice_to_firstn {A} (l : list A) (n : Z) :
  exists m, slice_to l n = firstn m l.
Proof.
  unfold slice_to. destruct (n <? 0)%Z; eexists; reflexivity.
Qed.

Lemma slice_to_length {A} (l : list A) (n : Z) :
  (0 <= n)%Z -> length (slice_to l n) = Nat.min (Z.to_nat n) (length l).
Proof.
  intros Hn. unfold slice_to.
  destruct (n <? 0)%Z eqn:E; [apply Z.ltb_lt in E; lia|].
  apply length_firstn.
Qed.

(** Sorting by a [nat] key without duplicates gives strictly increasing
    keys. *)
Lemma sorted_by_nat_key {A} (key : A -> nat) (l : list A) :
  NoDup (map key l) ->
  StronglySorted lt (map key (sorted Nat.ltb key false l)).
Proof.
  intros ND.
  assert (S1 : StronglySorted (fun a b => key a <= key b)%nat
                 (sorted Nat.ltb key false l)).
  { apply sorted_sorted.
    - intros a b c; lia.
    - unfold goes_before. intros y x H. apply Nat.ltb_lt in H. lia.
    - unfold goes_before. intros y x H. apply Nat.ltb_ge in H. exact H. }
  assert (ND' : NoDup (map key (sorted Nat.ltb key false l))).
  { apply (Permutation_NoDup
             (Permutation_sym (Permutation_map key
                (sorted_perm Nat.ltb key false l)))).
    exact ND. }
  induction S1 as [|x rest Hrest IH Hx]; simpl; [constructor|].
  simpl in ND'. inversion ND' as [|? ? Hnotin ND'']; subst.
  constructor; [apply IH; exact ND''|].
  apply Forall_forall. intros k Hk.
  apply in_map_iff in Hk. destruct Hk as [y [<- Hy]].
  rewrite Forall_forall in Hx. specialize (Hx y Hy).
  assert (key x <> key y).
  { intros E. apply Hnotin. rewrite E. apply in_map. exact Hy. }
  lia.
Qed.

(** ** Picking sentences by index *)

Lemma index_or_raise_nat {A} (l : list A) (i : nat) (x : A) :
  nth_error l i = Some x -> index_or_raise l (Z.of_nat i) = Ok x.
Proof.
  intros H. unfold index_or_raise, getitem, len.
  assert (Hi : (i < length l)%nat) by (apply nth_error_Some; congruence).
  destruct (Z.of_nat i <? 0)%Z eqn:E; [apply Z.ltb_lt in E; lia|].
  replace ((0 <=? Z.of_nat i) && (Z.of_nat i <? Z.of_nat (length l)))%Z
    with true.
  - rewrite Nat2Z.id, H. reflexivity.
  - symmetry. apply andb_true_intro. split.
    + apply Z.leb_le. lia.
    + apply Z.ltb_lt. lia.
Qed.

Lemma mapM_index (sentences : list str) (positions : list nat) :
  Forall (fun i => i < length sentences)%nat positions ->
  exists picked,
    mapM (fun i => index_or_raise sentences (Z.of_nat i)) positions
    = Ok picked /\
    Forall2 (fun i s => nth_error sentences i = Some s) positions picked.
Proof.
  induction 1 as [|i rest Hi _ IH]; simpl.
  - exists []. split; [reflexivity | constructor].
  - destruct IH as [picked [E F]].
    destruct (nth_error sentences i) as [s|] eqn:N.
    + exists (s :: picked). rewrite (index_or_raise_nat _ _ N). simpl.
      rewrite E. simpl. split; [reflexivity|]. constructor; assumption.
    + apply nth_error_None in N. lia.
Qed.

Lemma Forall2_length_eq {A B} (P : A -> B -> Prop) (l : list A) (m : list B) :
  Forall2 P l m -> length l = length m.
Proof. induction 1; simpl; congruence. Qed.

(** ** The statistical summarizer *)

Section StatisticalFacts.
Variable env : Env.
Variable self : Statistical.StatisticalSummarizer.

Lemma enumerate_from_keys {A} (l : list A) (i : nat) :
  map fst (enumerate_from i l) = seq i (length l).
Proof.
  revert i. induction l as [|x l IH]; intros i; simpl; [reflexivity|].
  rewrite IH. reflexivity.
Qed.

Lemma tfidf_keys (sentences : list str) :
  dict_keys (Statistical._calculate_sentence_scores_tfidf env sentences)
  = seq 0 (length sentences).
Proof.
  unfold Statistical._calculate_sentence_scores_tfidf, dict_keys.
  destruct sentences as [|s sentences]; [reflexivity|].
  cbn [truthy negb].
  destruct (fit_transform env (s :: sentences));
    rewrite map_map; simpl fst; apply map_id.
Qed.

Lemma frequency_keys (text : str) (sentences : list str) :
  dict_keys
    (Statistical._calculate_sentence_scores_frequency env self text sentences)
  = seq 0 (length sentences).
Proof.
  unfold Statistical._calculate_sentence_scores_frequency, dict_keys.
  rewrite map_map. simpl fst. apply enumerate_from_keys.
Qed.

Lemma ranked_indices_perm (scores : dict nat Q) :
  Permutation (Statistical.ranked_indices scores) (dict_keys scores).
Proof. apply sorted_perm. Qed.

Lemma top_indices_sorted (scores : dict nat Q) (n : Z) :
  NoDup (dict_keys scores) ->
  StronglySorted lt (Statistical.top_indices scores n).
Proof.
  intros ND. unfold Statistical.top_indices.
  rewrite <- (map_id (sorted _ _ _ _)).
  apply sorted_by_nat_key. rewrite map_id.
  destruct (slice_to_firstn (Statistical.ranked_indices scores) n) as [m ->].
  apply NoDup_firstn.
  apply (Permutation_NoDup (Permutation_sym (ranked_indices_perm scores))).
  exact ND.
Qed.

Lemma top_indices_in (scores : dict nat Q) (n : Z) (i : nat) :
  In i (Statistical.top_indices scores n) -> In i (dict_keys scores).
Proof.
  unfold Statistical.top_indices. intros H.
  apply (Permutation_in _ (sorted_perm _ _ _ _)) in H.
  destruct (slice_to_firstn (Statistical.ranked_indices scores) n) as [m E].
  rewrite E in H. apply In_firstn in H.
  apply (Permutation_in _ (ranked_indices_perm scores)). exact H.
Qed.

Lemma top_indices_length (scores : dict nat Q) (n : Z) :
  (0 <= n)%Z ->
  length (Statistical.top_indices scores n)
  = Nat.min (Z.to_nat n) (length (dict_keys scores)).
Proof.
  intros Hn. unfold Statistical.top_indices.
  rewrite sorted_length, slice_to_length by exact Hn.
  unfold Statistical.ranked_indices. rewrite sorted_length. reflexivity.
Qed.

(** Picking by [top_indices] never raises, and the picked sentences stand in
    the order of the text. *)
Lemma pick_top (sentences : list str) (scores : dict nat Q) (n : Z) :
  dict_keys scores = seq 0 (length sentences) ->
  exists picked,
    mapM (fun i => index_or_raise sentences (Z.of_nat i))
         (Statistical.top_indices scores n) = Ok picked /\
    in_source_order sentences picked /\
    length picked = length (Statistical.top_indices scores n).
Proof.
  intros K.
  destruct (@mapM_index sentences (Statistical.top_indices scores n))
    as [picked [E F]].
  - apply Forall_forall. intros i Hi. apply top_indices_in in Hi.
    rewrite K in Hi. apply in_seq in Hi. lia.
  - exists picked. split; [exact E|]. split.
    + exists (Statistical.top_indices scores n). split; [|exact F].
      apply top_indices_sorted. rewrite K. apply seq_NoDup.
    + symmetry. apply (Forall2_length_eq F).
Qed.

End StatisticalFacts.

Section SummarizeCases.
Variable env : Env.

Lemma statistical_blank (self : Statistical.StatisticalSummarizer)
  (text : str) (n : Z) :
  blank text = true ->
  Statistical.summarize_sentences env self text n = Ok ([], []).
Proof.
  intros B. unfold Statistical.summarize_sentences.
  fold (guard text). rewrite guard_blank, B. reflexivity.
Qed.

Lemma statistical_whole (self : Statistical.StatisticalSummarizer)
  (text : str) (n : Z) :
  blank text = false ->
  (len (sent_tokenize env (Statistical._preprocess_text text)) <= n)%Z ->
  Statistical.summarize_sentences env self text n
  = Ok (Statistical._preprocess_text text,
        sent_tokenize env (Statistical._preprocess_text text)).
Proof.
  intros B L. unfold Statistical.summarize_sentences.
  fold (guard text). rewrite guard_blank, B.
  apply Z.leb_le in L. rewrite L. reflexivity.
Qed.

Lemma statistical_picked (self : Statistical.StatisticalSummarizer)
  (text : str) (n : Z) :
  blank text = false ->
  (n < len (sent_tokenize env (Statistical._preprocess_text text)))%Z ->
  exists picked,
    Statistical.summarize_sentences env self text n
    = Ok (join (of_string " ") picked, picked) /\
    in_source_order (sent_tokenize env (Statistical._preprocess_text text))
                    picked /\
    ((0 <= n)%Z -> length picked = Z.to_nat n).
Proof.
  intros B L. unfold Statistical.summarize_sentences.
  fold (guard text). rewrite guard_blank, B.
  set (text' := Statistical._preprocess_text text) in *.
  set (sentences := sent_tokenize env text') in *.
  destruct (len sentences <=? n)%Z eqn:E; [apply Z.leb_le in E; lia|].
  set (scores :=
         if str_eqb (Statistical.method self) (of_string "tfidf")
         then Statistical._calculate_sentence_scores_tfidf env sentences
         else Statistical._calculate_sentence_scores_frequency
                env self text' sentences).
  assert (K : dict_keys scores = seq 0 (length sentences)).
  { unfold scores.
    destruct (str_eqb (Statistical.method self) (of_string "tfidf")).
    - apply tfidf_keys.
    - apply frequency_keys. }
  destruct (pick_top sentences scores n K) as [picked [M [O Len]]].
  exists picked. cbv zeta. rewrite M. simpl.
  split; [reflexivity|]. split; [exact O|].
  intros Hn. rewrite Len, top_indices_length, K, length_seq by exact Hn.
  unfold len in L. lia.
Qed.

Lemma extractive_blank (self : Extractive.ExtractiveSummarizer)
  (text : str) (n : Z) :
  blank text = true ->
  Extractive.summarize_sentences env self text n = Ok ([], []).
Proof.
  intros B. unfold Extractive.summarize_sentences.
  fold (guard text). rewrite guard_blank, B. reflexivity.
Qed.

Lemma extractive_nonblank (self : Extractive.ExtractiveSummarizer)
  (text : str) (n : Z) :
  blank text = false ->
  Extractive.summarize_sentences env self text n
  = Ok (join (of_string " ")
          (Extractive.summarizer self (parser_document env text) n),
        Extractive.summarizer self (parser_document env text) n).
Proof.
  intros B. unfold Extractive.summarize_sentences.
  fold (guard text). rewrite guard_blank, B. reflexivity.
Qed.

(** Every summarizer object [__init__] can store is one of sumy's. *)
Lemma init_selects (algorithm : str) (self : Extractive.ExtractiveSummarizer) :
  sumy_contract env ->
  Extractive.__init__ env algorithm = Ok self ->
  sumy_selects (Extractive.summarizer self).
Proof.
  intros [T [L U]]. unfold Extractive.__init__, Extractive._get_summarizer.
  destruct (str_eqb (str_lower env algorithm) (of_string "textrank"));
    [simpl; intros H; injection H as <-; exact T|].
  destruct (str_eqb (str_lower env algorithm) (of_string "lexrank"));
    [simpl; intros H; injection H as <-; exact L|].
  destruct (str_eqb (str_lower env algorithm) (of_string "luhn"));
    [simpl; intros H; injection H as <-; exact U|].
  simpl. discriminate.
Qed.

End SummarizeCases.

(** ** Sentences taken in order *)

Lemma skipn_nth_error {A} (l : list A) (a : nat) (x : A) :
  nth_error l a = Some x -> skipn a l = x :: skipn (S a) l.
Proof.
  revert l. induction a as [|a IH]; intros [|y l]; simpl; try discriminate.
  - intros H. injection H as ->. reflexivity.
  - intros H. apply IH. exact H.
Qed.

Lemma Forall2_seq_skipn (doc picked : list str) (a : nat) :
  Forall2 (fun i s => nth_error doc i = Some s) (seq a (length picked)) picked ->
  (a + length picked = length doc)%nat ->
  picked = skipn a doc.
Proof.
  revert a. induction picked as [|s picked IH]; intros a F L; simpl in *.
  - rewrite skipn_all2 by lia. reflexivity.
  - inversion F as [|? ? ? ? N F']; subst.
    rewrite (skipn_nth_error _ _ N). f_equal.
    apply IH; [exact F' | lia].
Qed.

Lemma ascending_all (positions : list nat) (a : nat) :
  StronglySorted lt positions ->
  Forall (fun i => a <= i < a + length positions)%nat positions ->
  positions = seq a (length positions).
Proof.
  intros S. revert a.
  induction S as [|x rest Hrest IH Hx]; intros a F; simpl; [reflexivity|].
  inversion F as [|? ? Fx Frest]; subst. simpl in Fx, Frest.
  assert (Frest' : Forall (fun i => S a <= i < S a + length rest)%nat rest).
  { rewrite Forall_forall in *. intros i Hi.
    specialize (Hx i Hi). specialize (Frest i Hi). lia. }
  specialize (IH (S a) Frest').
  assert (x = a).
  { destruct rest as [|y rest']; simpl in *; [lia|].
    injection IH as Hy _. inversion Hx; subst. lia. }
  subst x. f_equal. exact IH.
Qed.

Lemma positions_bound (doc picked : list str) (positions : list nat) :
  Forall2 (fun i s => nth_error doc i = Some s) positions picked ->
  Forall (fun i => i < length doc)%nat positions.
Proof.
  induction 1 as [|i s ps ss N _ IH]; constructor; [|exact IH].
  apply nth_error_Some. congruence.
Qed.

(** Taking as many sentences as there are, in order, takes them all. *)
Lemma in_source_order_full (doc picked : list str) :
  in_source_order doc picked -> length picked = length doc -> picked = doc.
Proof.
  intros [positions [S F]] L.
  assert (Lp : length positions = length picked)
    by apply (Forall2_length_eq F).
  assert (B : Forall (fun i => 0 <= i < 0 + length positions)%nat positions).
  { apply (Forall_impl _ (P := fun i => (i < length doc)%nat)).
    - intros i Hi. lia.
    - eapply positions_bound. exact F. }
  rewrite (ascending_all S B), Lp in F.
  apply Forall2_seq_skipn in F; [exact F | lia].
Qed.

(** ** The reference environment meets both contracts *)

Lemma enumerate_from_nth {A} (l : list A) (a i : nat) (x : A) :
  In (i, x) (enumerate_from a l) ->
  (a <= i)%nat /\ nth_error l (i - a) = Some x.
Proof.
  revert a. induction l as [|y l IH]; intros a; simpl; [tauto|].
  intros [E | H].
  - injection E as <- <-. rewrite Nat.sub_diag. split; [lia | reflexivity].
  - apply IH in H. destruct H as [Hle N]. split; [lia|].
    replace (i - a)%nat with (S (i - S a)) by lia. exact N.
Qed.

Lemma enumerate_nth {A} (l : list A) (i : nat) (x : A) :
  In (i, x) (enumerate l) -> nth_error l i = Some x.
Proof.
  intros H. apply enumerate_from_nth in H. rewrite Nat.sub_0_r in H. tauto.
Qed.

Lemma enumerate_length {A} (l : list A) : length (enumerate l) = length l.
Proof.
  unfold enumerate.
  rewrite <- (length_map fst), enumerate_from_keys. apply length_seq.
Qed.

Lemma StronglySorted_firstn {A} (R : A -> A -> Prop) (n : nat) (l : list A) :
  StronglySorted R l -> StronglySorted R (firstn n l).
Proof.
  intros S. revert n.
  induction S as [|x l Hl IH Hx]; intros [|n]; simpl; try constructor.
  - apply IH.
  - apply Forall_forall. intros y Hy. apply In_firstn in Hy.
    rewrite Forall_forall in Hx. apply Hx. exact Hy.
Qed.

Lemma StronglySorted_map {A B} (R : B -> B -> Prop) (f : A -> B) (l : list A) :
  StronglySorted (fun a b => R (f a) (f b)) l -> StronglySorted R (map f l).
Proof.
  induction 1 as [|x l Hl IH Hx]; simpl; constructor; [exact IH|].
  apply Forall_forall. intros y Hy. apply in_map_iff in Hy.
  destruct Hy as [z [<- Hz]]. rewrite Forall_forall in Hx. apply Hx. exact Hz.
Qed.

Lemma slice_to_length_any {A B} (l : list A) (m : list B) (n : Z) :
  length l = length m -> length (slice_to l n) = length (slice_to m n).
Proof.
  intros E. unfold slice_to, len. rewrite E.
  destruct (n <? 0)%Z; rewrite !length_firstn, E; reflexivity.
Qed.

(** What [Sumy._get_best_sentences] returns stands in document order. *)
Lemma get_best_sentences_in_order (rate : str -> Q)
  (document : list str) (count : Z) :
  in_source_order document (Sumy._get_best_sentences rate document count).
Proof.
  unfold Sumy._get_best_sentences.
  set (ranked := sorted Qlt_bool (fun info : nat * str => rate (snd info))
                   true (enumerate document)).
  destruct (slice_to_firstn ranked count) as [m Em].
  assert (Pr : Permutation ranked (enumerate document))
    by apply sorted_perm.
  exists (map fst (sorted Nat.ltb (fun info : nat * str => fst info) false
                     (slice_to ranked count))).
  split.
  - apply sorted_by_nat_key. rewrite Em, <- firstn_map.
    apply NoDup_firstn.
    apply (Permutation_NoDup
             (Permutation_sym (Permutation_map fst Pr))).
    unfold enumerate. rewrite enumerate_from_keys. apply seq_NoDup.
  - assert (F : Forall (fun p : nat * str =>
                          nth_error document (fst p) = Some (snd p))
                  (sorted Nat.ltb (fun info : nat * str => fst info) false
                     (slice_to ranked count))).
    { apply Forall_forall. intros [i s] H.
      apply (Permutation_in _ (sorted_perm _ _ _ _)) in H.
      rewrite Em in H. apply In_firstn in H.
      apply (Permutation_in _ Pr) in H.
      apply enumerate_nth. exact H. }
    induction F as [|p l Hp _ IH]; simpl; constructor; assumption.
Qed.

(** It returns as many sentences as the slice [[:count]] of the document
    has. *)
Lemma get_best_sentences_length (rate : str -> Q)
  (document : list str) (count : Z) :
  length (Sumy._get_best_sentences rate document count)
  = length (slice_to document count).
Proof.
  unfold Sumy._get_best_sentences.
  rewrite length_map, sorted_length.
  apply slice_to_length_any.
  rewrite sorted_length. apply enumerate_length.
Qed.

Lemma selects_in_order (summarizer : list str -> Z -> list str)
  (document : list str) (count : Z) :
  sumy_selects summarizer ->
  in_source_order document (summarizer document count).
Proof.
  intros S. destruct (S document) as [rate E]. rewrite E.
  apply get_best_sentences_in_order.
Qed.

Lemma selects_length (summarizer : list str -> Z -> list str)
  (document : list str) (count : Z) :
  sumy_selects summarizer ->
  (0 <= count)%Z ->
  length (summarizer document count)
  = Nat.min (Z.to_nat count) (length document).
Proof.
  intros S H. destruct (S document) as [rate E]. rewrite E.
  rewrite get_best_sentences_length. apply slice_to_length. exact H.
Qed.

Lemma reference_sumy_contract : sumy_contract Reference.env.
Proof.
  repeat split; intros document; eexists; intros count; reflexivity.
Qed.

Lemma Qsquare_nonneg (a : Q) : 0 <= a * a.
Proof.
  destruct a as [n dn]. unfold Qle, Qmult. simpl. nia.
Qed.

Lemma fold_Qplus_nonneg (l : list Q) (acc : Q) :
  0 <= acc -> Forall (fun x => 0 <= x) l -> 0 <= fold_left Qplus l acc.
Proof.
  revert acc. induction l as [|x l IH]; intros acc Ha F; simpl; [exact Ha|].
  inversion F as [|? ? Hx Hl]; subst.
  apply IH; [|exact Hl].
  rewrite <- (Qplus_0_r 0). apply Qplus_le_compat; assumption.
Qed.

Lemma L2sqr_nonneg (x y : vec) : 0 <= Faiss.L2sqr x y.
Proof.
  unfold Faiss.L2sqr, Statistical.np_sum.
  apply fold_Qplus_nonneg; [apply Qle_refl|].
  apply Forall_forall. intros z Hz. apply in_map_iff in Hz.
  destruct Hz as [p [<- _]]. apply Qsquare_nonneg.
Qed.

Lemma Qlt_bool_true (a b : Q) : Qlt_bool a b = true -> a <= b.
Proof.
  unfold Qlt_bool. intros H. apply negb_true_iff in H.
  destruct (Qlt_le_dec a b) as [L | L]; [apply Qlt_le_weak; exact L|].
  apply Qle_bool_iff in L. congruence.
Qed.

Lemma Qlt_bool_false (a b : Q) : Qlt_bool a b = false -> b <= a.
Proof.
  unfold Qlt_bool. intros H. apply negb_false_iff in H.
  apply Qle_bool_iff. exact H.
Qed.

Lemma Qlt_bool_strict (a b : Q) : Qlt_bool a b = true -> a < b.
Proof.
  unfold Qlt_bool. intros H. apply negb_true_iff in H.
  apply Qnot_le_lt. intros L. apply Qle_bool_iff in L. congruence.
Qed.

(** The exact search meets the contract of the index. *)
Lemma faiss_exact_contract (env : Env) :
  faiss_exact env -> faiss_contract env.
Proof.
  intros X ix q k Hk. rewrite (X ix q k Hk).
  unfold Faiss.IndexFlatL2_search.
  set (scored :=
         map (fun row : nat * vec =>
                (Faiss.L2sqr q (snd row), Z.of_nat (fst row)))
             (enumerate (xb ix))).
  set (ranked := sorted Qlt_bool (fun p : Q * Z => fst p) false scored).
  cbn [fst snd].
  assert (L0 : length scored = length (xb ix)).
  { unfold scored. rewrite length_map. apply enumerate_length. }
  assert (L1 : length ranked = length (xb ix)).
  { unfold ranked. rewrite sorted_length. exact L0. }
  assert (In0 : forall p, In p ranked -> In p scored).
  { intros p H. apply (Permutation_in _ (sorted_perm _ _ _ _)) in H.
    exact H. }
  unfold ntotal, len in *.
  repeat split.
  - rewrite length_map, length_firstn. lia.
  - rewrite length_map, length_firstn. lia.
  - apply Forall_forall. intros i Hi. apply in_map_iff in Hi.
    destruct Hi as [p [<- Hp]]. apply In_firstn, In0 in Hp.
    apply in_map_iff in Hp. destruct Hp as [[j row] [<- Hj]]. simpl.
    apply enumerate_nth in Hj.
    assert (j < length (xb ix))%nat by (apply nth_error_Some; congruence).
    lia.
  - apply Forall_forall. intros dist Hd. apply in_map_iff in Hd.
    destruct Hd as [p [<- Hp]]. apply In_firstn, In0 in Hp.
    apply in_map_iff in Hp. destruct Hp as [row [<- _]]. simpl.
    apply L2sqr_nonneg.
  - apply StronglySorted_map, StronglySorted_firstn.
    apply sorted_sorted.
    + intros a b c. apply Qle_trans.
    + unfold goes_before. intros y x. apply Qlt_bool_true.
    + unfold goes_before. intros y x. apply Qlt_bool_false.
Qed.

Lemma reference_faiss_exact : faiss_exact Reference.env.
Proof. intros ix q k _. reflexivity. Qed.

Lemma reference_faiss_contract : faiss_contract Reference.env.
Proof. apply faiss_exact_contract, reference_faiss_exact. Qed.

(** ** Similarity scores *)




(** ** The retriever *)

Section RetrieverFacts.
Import Embeddings Retrieval.

(** What a successful [build_index] leaves in the retriever. *)
Lemma build_index_ok (r0 r : VectorRetriever) (docs : list str)
  (meta : option (list Retrieval.meta)) :
  build_index r0 docs meta = (Ok tt, r) ->
  metadata_matches docs meta ->
  docs <> [] /\
  documents r = docs /\
  (length docs <= length (metadata r))%nat /\
  exists m ix,
    model (embedding_model r) = Some m /\
    index r = Some ix /\
    ntotal ix = len docs.
Proof.
  unfold build_index. destruct docs as [|doc docs]; [discriminate|].
  cbn [truthy negb]. unfold embed_batch. cbn [Retrieval.embedding_model].
  destruct (model (Retrieval.embedding_model r0)) as [m|] eqn:M;
    [|discriminate].
  intros E MM. injection E as <-. cbn.
  split; [discriminate|]. split; [reflexivity|]. split.
  - destruct meta as [[|x ms]|]; cbn in *.
    + rewrite length_map. apply Nat.le_refl.
    + destruct MM as [MM | MM]; [discriminate | exact MM].
    + rewrite length_map. apply Nat.le_refl.
  - exists m. eexists. split; [exact M|]. split; [reflexivity|].
    unfold ntotal, len. cbn. rewrite length_map. reflexivity.
Qed.

(** A [build_index] that raises leaves the index as it was: before the
    first successful build the retriever stays unbuilt. *)
Lemma build_index_failure (r0 r : VectorRetriever) (docs : list str)
  (meta : option (list Retrieval.meta)) (e : exn) :
  build_index r0 docs meta = (Raise e, r) -> index r = index r0.
Proof.
  unfold build_index. destruct docs as [|doc docs]; cbn [truthy negb].
  - intros E. injection E as _ <-. reflexivity.
  - unfold embed_batch. cbn [Retrieval.embedding_model].
    destruct (model (Retrieval.embedding_model r0)); [discriminate|].
    intros E. injection E as _ <-. reflexivity.
Qed.

Lemma getitem_in_range {A} (l : list A) (i : Z) :
  (0 <= i < len l)%Z -> exists x, getitem l i = Some x.
Proof.
  intros H. unfold getitem.
  destruct (i <? 0)%Z eqn:E; [apply Z.ltb_lt in E; lia|].
  replace ((0 <=? i) && (i <? len l))%Z with true.
  - destruct (nth_error l (Z.to_nat i)) as [x|] eqn:N; [eauto|].
    apply nth_error_None in N. unfold len in H. lia.
  - symmetry. apply andb_true_intro. split;
      [apply Z.leb_le | apply Z.ltb_lt]; lia.
Qed.

Lemma collect_ok (docs : list str) (metas : list Retrieval.meta)
  (found : list (Q * Z)) :
  (length docs <= length metas)%nat ->
  Forall (fun p => 0 <= snd p < len docs)%Z found ->
  exists results,
    collect docs metas found = Ok results /\
    Forall2 (renders docs metas) found results.
Proof.
  intros L. induction 1 as [|[dist idx] rest Hp _ IH]; simpl.
  - exists []. split; [reflexivity | constructor].
  - simpl in Hp. destruct IH as [results [E F]].
    destruct (idx <? len docs)%Z eqn:C; [|apply Z.ltb_ge in C; lia].
    destruct (getitem_in_range docs Hp) as [doc Gd].
    assert (Hm : (0 <= idx < len metas)%Z) by (unfold len in *; lia).
    destruct (getitem_in_range metas Hm) as [m Gm].
    exists ((doc, 1 / (1 + dist), m) :: results).
    unfold index_or_raise. rewrite Gd, Gm. simpl. rewrite E. simpl.
    split; [reflexivity|]. constructor; [|exact F].
    repeat split; assumption.
Qed.

End RetrieverFacts.

Lemma combine_sorted_fst (D : list Q) (L : list Z) :
  StronglySorted Qle D ->
  StronglySorted (fun a b : Q * Z => fst a <= fst b) (combine D L).
Proof.
  intros S. revert L.
  induction S as [|dist D HD IH Hdist]; intros [|i L]; simpl;
    try constructor.
  - apply IH.
  - apply Forall_forall. intros [d' i'] H. apply in_combine_l in H.
    rewrite Forall_forall in Hdist. apply Hdist. exact H.
Qed.

Section RetrieveFacts.
Import Embeddings Retrieval.
Variable env : Env.
Hypothesis faiss : faiss_contract env.

Lemma retrieve_ok (r0 r : VectorRetriever) (docs : list str)
  (meta : option (list Retrieval.meta)) (q : str) (top_k : Z) :
  build_index r0 docs meta = (Ok tt, r) ->
  metadata_matches docs meta ->
  (0 < top_k)%Z ->
  exists m ix results,
    model (embedding_model r) = Some m /\
    index r = Some ix /\
    retrieve env r q top_k = (Ok results, r) /\
    let found := neighbours env ix (m q) (Z.min top_k (len docs)) in
    Forall2 (renders docs (metadata r)) found results /\
    length found = Z.to_nat (Z.min top_k (len docs)) /\
    Forall (fun p => 0 <= fst p) found /\
    StronglySorted (fun a b => fst a <= fst b) found.
Proof.
  intros B MM Hk.
  destruct (build_index_ok _ _ _ B MM) as [Hne [Hd [Hm [m [ix [M [I N]]]]]]].
  assert (Hlen : (0 < len docs)%Z).
  { unfold len. destruct docs; [congruence | simpl; lia]. }
  set (k := Z.min top_k (len docs)).
  assert (Hk' : (0 < k <= ntotal ix)%Z) by (unfold k; lia).
  destruct (faiss ix (m q) Hk') as [LD [LI [FI [FD SD]]]].
  assert (FI' : Forall (fun p : Q * Z => 0 <= snd p < len docs)%Z
                  (neighbours env ix (m q) k)).
  { apply Forall_forall. intros [dist i] H. apply in_combine_r in H.
    rewrite Forall_forall in FI. specialize (FI i H). simpl. lia. }
  destruct (collect_ok docs (metadata r) Hm FI') as [results [C F]].
  exists m, ix, results.
  split; [exact M|]. split; [exact I|]. split.
  - unfold retrieve, embed_text. rewrite I, M, Hd. fold k.
    unfold neighbours in C.
    destruct (search env ix (m q) k) as [D L]. simpl in C.
    rewrite C. reflexivity.
  - cbv zeta. fold k. split; [exact F|]. split.
    + unfold neighbours. rewrite length_combine, LD, LI. apply Nat.min_id.
    + split.
      * apply Forall_forall. intros [dist i] H. apply in_combine_l in H.
        rewrite Forall_forall in FD. apply FD. exact H.
      * apply combine_sorted_fst. exact SD.
Qed.

End RetrieveFacts.



(** ** Neighbours at the same distance *)










(** * The claims *)

(** ** Retrieval *)




(** C4 (as amended).  On a retriever built over [n] documents with
    metadata absent, empty or no shorter than the documents, with an index
    search that answers with [k] labels of stored rows, [retrieve] with
    [top_k >= 1] returns exactly [min(top_k, n)] results, hence exactly [n]
    when [top_k > n]. *)
Theorem retrieve_returns_min_top_k
  (env : Env) (r0 r : Retrieval.VectorRetriever) (docs : list str)
  (meta : option (list Retrieval.meta)) (q : str) (top_k : Z) :
  faiss_contract env ->
  Retrieval.build_index r0 docs meta = (Ok tt, r) ->
  metadata_matches docs meta ->
  (0 < top_k)%Z ->
  exists results,
    Retrieval.retrieve env r q top_k = (Ok results, r) /\
    len results = Z.min top_k (len docs) /\
    ((len docs < top_k)%Z -> len results = len docs).
Proof.
  intros faiss B MM Hk.
  destruct (@retrieve_ok env faiss r0 r docs meta q top_k B MM Hk)
    as [m [ix [results [_ [_ [E [F [L _]]]]]]]].
  exists results. split; [exact E|].
  assert (H : len results = Z.min top_k (len docs)).
  { unfold len at 1. rewrite <- (Forall2_length_eq F), L.
    unfold len. lia. }
  split; [exact H|]. intros G. rewrite H. lia.
Qed.

Lemma retrieve_returns_min_top_k_witness :
  exists results,
    Retrieval.retrieve (Reference.env) Reference.built_retriever
      (of_string "technology") 5
    = (Ok results, Reference.built_retriever) /\
    len results = Z.min 5 (len Reference.corpus) /\
    ((len Reference.corpus < 5)%Z -> len results = len Reference.corpus).
Proof.
  apply (@retrieve_returns_min_top_k (Reference.env)
           Reference.fresh_retriever Reference.built_retriever
           Reference.corpus None (of_string "technology") 5).
  - apply reference_faiss_contract.
  - reflexivity.
  - exact I.
  - lia.
Defined.

(** C4, the counterexample.  On the index [build_index] builds from two
    documents and one metadata entry, [retrieve] with [top_k = 5 > 2] does
    not return two results: it raises IndexError at [self.metadata[idx]]
    for the second neighbour. *)
Lemma retrieve_count_fails_on_short_metadata :
  Retrieval.build_index Reference.fresh_retriever Reference.twins
    (Some Reference.one_meta)
  = (Ok tt, Reference.short_meta_twins) /\
  Retrieval.retrieve Reference.env Reference.short_meta_twins
    (of_string "q") 5
  = (Raise (IndexError (of_string "list index out of range")),
     Reference.short_meta_twins).
Proof.
  split; [reflexivity | vm_compute; reflexivity].
Qed.

(** ** Summarization *)

(** C2.  When the text has more sentences than [num_sentences], the summary
    is the join, with single spaces, of sentences of the text taken at
    strictly increasing positions: the picked sentences stand in source
    order whatever their scores.  For the statistical family the sentences
    are those of [sent_tokenize] on the preprocessed text, for the
    graph-ranking family those of the parsed document, the sumy summarizers
    selecting their sentences as [Sumy._get_best_sentences] does for some
    rating of the sentences. *)
Theorem summarize_keeps_source_order
  (env : Env) (stat : Statistical.StatisticalSummarizer)
  (algorithm : str) (ext : Extractive.ExtractiveSummarizer)
  (text : str) (n : Z) :
  sumy_contract env ->
  Extractive.__init__ env algorithm = Ok ext ->
  ((n < len (sent_tokenize env (Statistical._preprocess_text text)))%Z ->
   exists picked,
     Statistical.summarize env stat text n
     = Ok (join (of_string " ") picked) /\
     Statistical.summary_sentences env stat text n = Ok picked /\
     in_source_order
       (sent_tokenize env (Statistical._preprocess_text text)) picked)
  /\
  ((n < len (parser_document env text))%Z ->
   exists picked,
     Extractive.summarize env ext text n
     = Ok (join (of_string " ") picked) /\
     Extractive.summary_sentences env ext text n = Ok picked /\
     in_source_order (parser_document env text) picked).
Proof.
  intros sumy Init. split; intros L.
  - unfold Statistical.summarize, Statistical.summary_sentences.
    destruct (blank text) eqn:B.
    + exists []. rewrite (@statistical_blank env stat text n B). simpl.
      repeat split. exists []. split; constructor.
    + destruct (@statistical_picked env stat text n B L)
        as [picked [E [O _]]].
      exists picked. rewrite E. simpl. repeat split. exact O.
  - unfold Extractive.summarize, Extractive.summary_sentences.
    destruct (blank text) eqn:B.
    + exists []. rewrite (@extractive_blank env ext text n B). simpl.
      repeat split. exists []. split; constructor.
    + rewrite (@extractive_nonblank env ext text n B). simpl.
      eexists. repeat split.
      apply selects_in_order, (@init_selects env algorithm ext sumy Init).
Qed.

Lemma summarize_keeps_source_order_witness :
  (exists picked,
     Statistical.summarize (Reference.env) Reference.tfidf_summarizer
       Reference.text7 3
     = Ok (join (of_string " ") picked) /\
     Statistical.summary_sentences (Reference.env)
       Reference.tfidf_summarizer Reference.text7 3 = Ok picked /\
     in_source_order
       (sent_tokenize (Reference.env)
          (Statistical._preprocess_text Reference.text7)) picked)
  /\
  (exists picked,
     Extractive.summarize (Reference.env) Reference.textrank_summarizer
       Reference.text7 3
     = Ok (join (of_string " ") picked) /\
     Extractive.summary_sentences (Reference.env)
       Reference.textrank_summarizer Reference.text7 3 = Ok picked /\
     in_source_order (parser_document (Reference.env) Reference.text7)
       picked).
Proof.
  destruct (@summarize_keeps_source_order (Reference.env)
              Reference.tfidf_summarizer (of_string "TextRank")
              Reference.textrank_summarizer Reference.text7 3
              reference_sumy_contract eq_refl) as [S E].
  split; [apply S | apply E]; vm_compute; reflexivity.
Defined.

(** C3.  The code at a text of two sentences in upper case, with
    [num_sentences = 3]: the statistical family returns the text whole, by
    its early return for texts of at most [num_sentences] sentences; the
    graph-ranking family has no such return, its parser takes the upper-case
    line for a heading, the document has no sentence left and [summarize]
    returns the empty string. *)
Theorem short_upper_case_text_is_dropped :
  sent_tokenize Reference.env
    (Statistical._preprocess_text (of_string "HELLO WORLD. THIS IS BIG."))
  = [of_string "HELLO WORLD."; of_string "THIS IS BIG."] /\
  Statistical.summarize Reference.env Reference.tfidf_summarizer
    (of_string "HELLO WORLD. THIS IS BIG.") 3
  = Ok (of_string "HELLO WORLD. THIS IS BIG.") /\
  parser_document Reference.env (of_string "HELLO WORLD. THIS IS BIG.")
  = [] /\
  Extractive.summarize Reference.env Reference.textrank_summarizer
    (of_string "HELLO WORLD. THIS IS BIG.") 3
  = Ok (of_string "").
Proof.
  repeat split; vm_compute; reflexivity.
Qed.

(** C9 (as amended).  For a fixed text and [0 <= n1 <= n2], the summary for
    [n1] is made of no more sentences than the summary for [n2], in both
    families, the sumy summarizers selecting their sentences as
    [Sumy._get_best_sentences] does for some rating of the sentences. *)
Theorem summary_length_monotone
  (env : Env) (stat : Statistical.StatisticalSummarizer)
  (algorithm : str) (ext : Extractive.ExtractiveSummarizer)
  (text : str) (n1 n2 : Z) :
  sumy_contract env ->
  Extractive.__init__ env algorithm = Ok ext ->
  (0 <= n1)%Z ->
  (n1 <= n2)%Z ->
  (exists s1 s2,
     Statistical.summary_sentences env stat text n1 = Ok s1 /\
     Statistical.summary_sentences env stat text n2 = Ok s2 /\
     (length s1 <= length s2)%nat)
  /\
  (exists s1 s2,
     Extractive.summary_sentences env ext text n1 = Ok s1 /\
     Extractive.summary_sentences env ext text n2 = Ok s2 /\
     (length s1 <= length s2)%nat).
Proof.
  intros sumy Init H1 H12. split.
  - unfold Statistical.summary_sentences.
    destruct (blank text) eqn:B.
    + exists [], []. rewrite !(@statistical_blank env stat text _ B).
      simpl. auto.
    + set (sentences :=
             sent_tokenize env (Statistical._preprocess_text text)).
      destruct (Z_le_gt_dec (len sentences) n1) as [L1 | L1].
      * exists sentences, sentences.
        rewrite (@statistical_whole env stat text n1 B L1).
        rewrite (@statistical_whole env stat text n2 B); [|fold sentences; lia].
        simpl. auto.
      * assert (L1' : (n1 < len sentences)%Z) by lia.
        destruct (@statistical_picked env stat text n1 B L1')
          as [p1 [E1 [_ Len1]]].
        rewrite E1. simpl.
        destruct (Z_le_gt_dec (len sentences) n2) as [L2 | L2].
        -- exists p1, sentences.
           rewrite (@statistical_whole env stat text n2 B L2). simpl.
           repeat split. rewrite Len1 by lia. unfold len in L1'. lia.
        -- assert (L2' : (n2 < len sentences)%Z) by lia.
           destruct (@statistical_picked env stat text n2 B L2')
             as [p2 [E2 [_ Len2]]].
           exists p1, p2. rewrite E2. simpl. repeat split.
           rewrite Len1, Len2 by lia. lia.
  - unfold Extractive.summary_sentences.
    destruct (blank text) eqn:B.
    + exists [], []. rewrite !(@extractive_blank env ext text _ B).
      simpl. auto.
    + rewrite !(@extractive_nonblank env ext text _ B). simpl.
      do 2 eexists. repeat split.
      pose proof (@init_selects env algorithm ext sumy Init) as Sel.
      rewrite (@selects_length _ (parser_document env text) n1 Sel H1).
      rewrite (@selects_length _ (parser_document env text) n2 Sel)
        by lia.
      lia.
Qed.

Lemma summary_length_monotone_witness :
  (exists s1 s2,
     Statistical.summary_sentences (Reference.env)
       Reference.tfidf_summarizer Reference.text7 2 = Ok s1 /\
     Statistical.summary_sentences (Reference.env)
       Reference.tfidf_summarizer Reference.text7 4 = Ok s2 /\
     (length s1 <= length s2)%nat)
  /\
  (exists s1 s2,
     Extractive.summary_sentences (Reference.env)
       Reference.textrank_summarizer Reference.text7 2 = Ok s1 /\
     Extractive.summary_sentences (Reference.env)
       Reference.textrank_summarizer Reference.text7 4 = Ok s2 /\
     (length s1 <= length s2)%nat).
Proof.
  apply (@summary_length_monotone (Reference.env)
           Reference.tfidf_summarizer (of_string "TextRank")
           Reference.textrank_summarizer Reference.text7 2 4).
  - apply reference_sumy_contract.
  - reflexivity.
  - lia.
  - lia.
Defined.

(** C9, the counterexample.  Below zero the count is a slice from the end:
    on the reference text of seven sentences [num_sentences = -1] keeps six
    sentences and [num_sentences = 0] keeps none, in both families, although
    [-1 <= 0]. *)
Lemma summary_length_not_monotone_below_zero :
  (-1 <= 0)%Z /\
  (exists s1 s2,
     Statistical.summary_sentences Reference.env Reference.tfidf_summarizer
       Reference.text7 (-1) = Ok s1 /\
     Statistical.summary_sentences Reference.env Reference.tfidf_summarizer
       Reference.text7 0 = Ok s2 /\
     length s1 = 6%nat /\ length s2 = 0%nat) /\
  (exists s1 s2,
     Extractive.summary_sentences Reference.env Reference.textrank_summarizer
       Reference.text7 (-1) = Ok s1 /\
     Extractive.summary_sentences Reference.env Reference.textrank_summarizer
       Reference.text7 0 = Ok s2 /\
     length s1 = 6%nat /\ length s2 = 0%nat).
Proof.
  split; [lia|].
  split; do 2 eexists; repeat split; vm_compute; reflexivity.
Qed.

(** C10.  On a text that is empty or whitespace only, [summarize] of either
    family returns the empty string; it does not raise. *)
Theorem summarize_blank_text_returns_empty
  (env : Env) (stat : Statistical.StatisticalSummarizer)
  (ext : Extractive.ExtractiveSummarizer) (text : str) (n : Z) :
  blank text = true ->
  Statistical.summarize env stat text n = Ok [] /\
  Extractive.summarize env ext text n = Ok [].
Proof.
  intros B. unfold Statistical.summarize, Extractive.summarize.
  rewrite (@statistical_blank env stat text n B).
  rewrite (@extractive_blank env ext text n B).
  split; reflexivity.
Qed.

Lemma summarize_blank_text_returns_empty_witness :
  Statistical.summarize (Reference.env) Reference.tfidf_summarizer
    [32; 9; 10; 160; 32]%N 3 = Ok [] /\
  Extractive.summarize (Reference.env) Reference.textrank_summarizer
    [32; 9; 10; 160; 32]%N 3 = Ok [].
Proof.
  apply (@summarize_blank_text_returns_empty (Reference.env)
           Reference.tfidf_summarizer Reference.textrank_summarizer
           [32; 9; 10; 160; 32]%N 3).
  reflexivity.
Defined.

(** C5.  The code at the inputs of the repository's [test_empty_text]:
    [summarize("", num_sentences=3)] returns the empty string in both
    families, and so does a text of three spaces; no ValueError is
    raised. *)
Theorem summarize_empty_text_is_not_rejected :
  Statistical.summarize (Reference.env) Reference.tfidf_summarizer
    (of_string "") 3 = Ok (of_string "") /\
  Extractive.summarize (Reference.env) Reference.textrank_summarizer
    (of_string "") 3 = Ok (of_string "") /\
  Statistical.summarize (Reference.env) Reference.tfidf_summarizer
    (of_string "   ") 3 = Ok (of_string "") /\
  Extractive.summarize (Reference.env) Reference.textrank_summarizer
    (of_string "   ") 3 = Ok (of_string "").
Proof.
  repeat split; vm_compute; reflexivity.
Qed.

(** ** The pipeline *)

(** C8.  [retrieve] on a retriever whose index has not been built raises
    the "Index not built" ValueError, [query_and_summarize] on a pipeline
    without a retriever raises the "Documents not indexed" ValueError, and
    each leaves its object as it was. *)
Theorem calls_before_indexing_raise
  (env : Env) (r : Retrieval.VectorRetriever) (p : Pipeline.RAGPipeline)
  (q : str) (top_k n : Z) (method : str) :
  Retrieval.index r = None ->
  Pipeline.retriever p = None ->
  Retrieval.retrieve env r q top_k = (Raise Retrieval.not_built, r) /\
  Pipeline.query_and_summarize env p q top_k n method
  = (Raise Pipeline.not_indexed, p).
Proof.
  intros I R. unfold Retrieval.retrieve, Pipeline.query_and_summarize.
  rewrite I, R. split; reflexivity.
Qed.

Lemma calls_before_indexing_raise_witness :
  Retrieval.retrieve (Reference.env) Reference.fresh_retriever
    (of_string "query") 1
  = (Raise Retrieval.not_built, Reference.fresh_retriever) /\
  Pipeline.query_and_summarize (Reference.env) Reference.fresh_pipeline
    (of_string "query") 1 3 (of_string "extractive")
  = (Raise Pipeline.not_indexed, Reference.fresh_pipeline).
Proof.
  apply (@calls_before_indexing_raise (Reference.env)
           Reference.fresh_retriever Reference.fresh_pipeline
           (of_string "query") 1 3 (of_string "extractive")).
  - reflexivity.
  - reflexivity.
Defined.

(** C6.  The code at the input of the repository's [test_empty_query], and
    at a two-character query: on an indexed pipeline [query_and_summarize]
    answers with one retrieved document and a summary; no ValueError is
    raised. *)
Theorem short_query_is_answered :
  (exists response,
     fst (Pipeline.query_and_summarize (Reference.env)
            Reference.indexed_pipeline (of_string "") 1 2
            (of_string "extractive"))
     = Ok response /\
     Pipeline.num_retrieved response = 1%Z /\
     Pipeline.summary response
     = of_string "AI helps doctors. It reads scans.")
  /\
  (exists response,
     fst (Pipeline.query_and_summarize (Reference.env)
            Reference.indexed_pipeline (of_string "ab") 1 2
            (of_string "extractive"))
     = Ok response /\
     Pipeline.num_retrieved response = 1%Z).
Proof.
  split; eexists; repeat split; vm_compute; reflexivity.
Qed.

(** C7.  The code at the input of the repository's [test_invalid_method]:
    a method name other than ["extractive"] is not rejected; it selects the
    statistical summarizer, so ["invalid_method"] behaves as
    ["statistical"] does, and on the indexed reference pipeline the call
    returns a response. *)
Theorem unknown_method_runs_statistical :
  (forall (env : Env) (self : Pipeline.RAGPipeline) (q : str) (top_k n : Z),
     Pipeline.query_and_summarize env self q top_k n
       (of_string "invalid_method")
     = Pipeline.query_and_summarize env self q top_k n
         (of_string "statistical"))
  /\
  (exists response,
     fst (Pipeline.query_and_summarize (Reference.env)
            Reference.indexed_pipeline (of_string "test") 1 2
            (of_string "invalid_method"))
     = Ok response /\
     Pipeline.num_retrieved response = 1%Z).
Proof.
  split.
  - intros env self q top_k n. reflexivity.
  - eexists. split; vm_compute; reflexivity.
Qed.

(** * Further properties of the summarizers *)

Lemma statistical_sentences_ok (env : Env)
  (self : Statistical.StatisticalSummarizer) (text : str) (n : Z) :
  exists r, Statistical.summarize_sentences env self text n = Ok r.
Proof.
  destruct (blank text) eqn:B.
  - eexists. apply statistical_blank. exact B.
  - destruct (Z_le_gt_dec
                (len (sent_tokenize env (Statistical._preprocess_text text)))
                n) as [L | L].
    + eexists. apply statistical_whole; assumption.
    + assert (L' : (n < len (sent_tokenize env
                               (Statistical._preprocess_text text)))%Z)
        by lia.
      destruct (@statistical_picked env self text n B L') as [p [E _]].
      eexists. exact E.
Qed.

Lemma mapM_total {A B} (f : A -> result B) (l : list A) :
  (forall x, exists y, f x = Ok y) ->
  exists ys, mapM f l = Ok ys /\ Forall2 (fun x y => f x = Ok y) l ys.
Proof.
  intros T. induction l as [|x l [ys [E F]]]; simpl.
  - exists []. split; [reflexivity | constructor].
  - destruct (T x) as [y Ey]. exists (y :: ys).
    rewrite Ey. simpl. rewrite E. simpl.
    split; [reflexivity|]. constructor; assumption.
Qed.

(** X1.  [StatisticalSummarizer.summarize] returns a string for every text
    and every [num_sentences], negative ones included: the positions it
    picks are always positions of sentences, so indexing never raises. *)
Theorem statistical_summarize_never_raises (env : Env)
  (self : Statistical.StatisticalSummarizer) (text : str) (n : Z) :
  exists summary, Statistical.summarize env self text n = Ok summary.
Proof.
  unfold Statistical.summarize.
  destruct (statistical_sentences_ok env self text n) as [r ->].
  eexists. reflexivity.
Qed.

(** X2.  [summarize_batch] of either family returns one summary per text,
    in the order of the texts, each the result of [summarize] on that text
    alone. *)
Theorem summarize_batch_elementwise (env : Env)
  (stat : Statistical.StatisticalSummarizer)
  (ext : Extractive.ExtractiveSummarizer) (texts : list str) (n : Z) :
  (exists summaries,
     Statistical.summarize_batch env stat texts n = Ok summaries /\
     Forall2 (fun text s => Statistical.summarize env stat text n = Ok s)
             texts summaries)
  /\
  (exists summaries,
     Extractive.summarize_batch env ext texts n = Ok summaries /\
     Forall2 (fun text s => Extractive.summarize env ext text n = Ok s)
             texts summaries).
Proof.
  split.
  - apply mapM_total. intros text.
    unfold Statistical.summarize.
    destruct (statistical_sentences_ok env stat text n) as [r ->].
    eexists. reflexivity.
  - apply mapM_total. intros text.
    unfold Extractive.summarize, Extractive.summarize_sentences.
    destruct (negb (truthy text) || negb (truthy (strip text)));
      eexists; reflexivity.
Qed.

(** X3.  When the text is not blank and has more than [num_sentences >= 0]
    sentences, the summary is made of exactly [num_sentences] sentences, in
    both families, the sumy summarizers selecting their sentences as
    [Sumy._get_best_sentences] does for some rating of the sentences. *)
Theorem summary_has_requested_length
  (env : Env) (stat : Statistical.StatisticalSummarizer)
  (algorithm : str) (ext : Extractive.ExtractiveSummarizer)
  (text : str) (n : Z) :
  sumy_contract env ->
  Extractive.__init__ env algorithm = Ok ext ->
  blank text = false ->
  (0 <= n)%Z ->
  ((n < len (sent_tokenize env (Statistical._preprocess_text text)))%Z ->
   exists picked,
     Statistical.summary_sentences env stat text n = Ok picked /\
     length picked = Z.to_nat n)
  /\
  ((n < len (parser_document env text))%Z ->
   exists picked,
     Extractive.summary_sentences env ext text n = Ok picked /\
     length picked = Z.to_nat n).
Proof.
  intros sumy Init B Hn. split; intros L.
  - destruct (@statistical_picked env stat text n B L) as [p [E [_ Len]]].
    exists p. unfold Statistical.summary_sentences. rewrite E.
    split; [reflexivity | apply Len; exact Hn].
  - unfold Extractive.summary_sentences.
    rewrite (@extractive_nonblank env ext text n B). simpl.
    eexists. split; [reflexivity|].
    pose proof (@init_selects env algorithm ext sumy Init) as Sel.
    rewrite (@selects_length _ (parser_document env text) n Sel Hn).
    unfold len in L. lia.
Qed.

Lemma summary_has_requested_length_witness :
  (exists picked,
     Statistical.summary_sentences (Reference.env)
       Reference.tfidf_summarizer Reference.text7 3 = Ok picked /\
     length picked = Z.to_nat 3)
  /\
  (exists picked,
     Extractive.summary_sentences (Reference.env)
       Reference.textrank_summarizer Reference.text7 3 = Ok picked /\
     length picked = Z.to_nat 3).
Proof.
  destruct (@summary_has_requested_length (Reference.env)
              Reference.tfidf_summarizer (of_string "TextRank")
              Reference.textrank_summarizer Reference.text7 3
              reference_sumy_contract eq_refl eq_refl)
    as [S E]; [lia|].
  split; [apply S | apply E]; vm_compute; reflexivity.
Defined.

(** X26.  When the preprocessed text has at most [num_sentences] sentences,
    [StatisticalSummarizer.summarize] returns the preprocessed text (runs of
    whitespace collapsed to single spaces, ends stripped) whole; for a blank
    text this is the empty string. *)
Theorem statistical_short_text_whole
  (env : Env) (stat : Statistical.StatisticalSummarizer)
  (text : str) (n : Z) :
  (len (sent_tokenize env (Statistical._preprocess_text text)) <= n)%Z ->
  Statistical.summarize env stat text n
  = Ok (Statistical._preprocess_text text).
Proof.
  intros L. unfold Statistical.summarize. destruct (blank text) eqn:B.
  - rewrite (@statistical_blank env stat text n B). simpl.
    rewrite (@preprocess_blank text B). reflexivity.
  - rewrite (@statistical_whole env stat text n B L). reflexivity.
Qed.

Lemma statistical_short_text_whole_witness :
  Statistical.summarize Reference.env Reference.tfidf_summarizer
    (of_string "  One.   Two two. ") 3
  = Ok (Statistical._preprocess_text (of_string "  One.   Two two. ")) /\
  Statistical._preprocess_text (of_string "  One.   Two two. ")
  = of_string "One. Two two.".
Proof.
  split; [|vm_compute; reflexivity].
  apply (@statistical_short_text_whole Reference.env
           Reference.tfidf_summarizer (of_string "  One.   Two two. ") 3).
  vm_compute. discriminate.
Defined.

Lemma outranks_trans (scores : dict nat Q) (a b c : nat) :
  outranks scores a b -> outranks scores b c -> outranks scores a c.
Proof.
  unfold outranks. intros [H1 | [E1 L1]] [H2 | [E2 L2]].
  - left. lra.
  - left. lra.
  - left. lra.
  - right. split; [lra | lia].
Qed.

Lemma insert_ranked (scores : dict nat Q) (x : nat) (l : list nat) :
  Forall (fun y => x < y)%nat l ->
  StronglySorted (outranks scores) l ->
  StronglySorted (outranks scores)
    (insert Qlt_bool (Statistical.score_of scores) true x l).
Proof.
  intros F S. induction S as [|y l Sl IH Hy]; simpl.
  - repeat constructor.
  - inversion F as [|? ? Hxy Fl]; subst. unfold goes_before.
    destruct (Qlt_bool (Statistical.score_of scores x)
                       (Statistical.score_of scores y)) eqn:E.
    + apply Qlt_bool_strict in E.
      constructor; [apply IH; exact Fl|].
      apply (Permutation_Forall
               (Permutation_sym (insert_perm Qlt_bool _ true x l))).
      constructor; [left; exact E | exact Hy].
    + apply Qlt_bool_false in E.
      assert (Oxy : outranks scores x y).
      { apply Qle_lt_or_eq in E. destruct E as [E | E].
        - left. exact E.
        - right. split; assumption. }
      constructor; [constructor; assumption|].
      constructor; [exact Oxy|].
      apply Forall_forall. intros z Hz.
      apply outranks_trans with y; [exact Oxy|].
      rewrite Forall_forall in Hy. apply Hy. exact Hz.
Qed.

(** The ranking is by descending score and, among equal scores, by
    ascending position. *)
Lemma ranked_indices_order (scores : dict nat Q) :
  StronglySorted lt (dict_keys scores) ->
  StronglySorted (outranks scores) (Statistical.ranked_indices scores).
Proof.
  unfold Statistical.ranked_indices.
  induction 1 as [|x l Sl IH Hx]; simpl; [constructor|].
  apply insert_ranked; [|exact IH].
  apply (Permutation_Forall (Permutation_sym (sorted_perm _ _ _ l))).
  exact Hx.
Qed.

Lemma StronglySorted_app_inv {A} (R : A -> A -> Prop) (l1 l2 : list A) :
  StronglySorted R (l1 ++ l2) ->
  forall a b, In a l1 -> In b l2 -> R a b.
Proof.
  induction l1 as [|x l1 IH]; simpl; intros S a b Ha Hb; [tauto|].
  inversion S as [|? ? S' F]; subst. destruct Ha as [<- | Ha].
  - rewrite Forall_forall in F. apply F. apply in_or_app. right. exact Hb.
  - apply IH; assumption.
Qed.

Lemma seq_sorted (a n : nat) : StronglySorted lt (seq a n).
Proof.
  revert a. induction n as [|n IH]; intros a; simpl; constructor.
  - apply IH.
  - apply Forall_forall. intros y Hy. apply in_seq in Hy. lia.
Qed.

(** X4.  The sentences [summarize] picks are the best ranked ones: a
    sentence that is picked ranks before every sentence that is not, that
    is, it has a higher score, or the same score and an earlier position
    in the text. *)
Theorem picked_sentences_rank_first
  (scores : dict nat Q) (count : nat) (n : Z) (i j : nat) :
  dict_keys scores = seq 0 count ->
  In i (Statistical.top_indices scores n) ->
  (j < count)%nat ->
  ~ In j (Statistical.top_indices scores n) ->
  outranks scores i j.
Proof.
  intros K Hi Hj Hnj.
  assert (S : StronglySorted (outranks scores)
                (Statistical.ranked_indices scores)).
  { apply ranked_indices_order. rewrite K. apply seq_sorted. }
  unfold Statistical.top_indices in Hi, Hnj.
  destruct (slice_to_firstn (Statistical.ranked_indices scores) n) as [m E].
  rewrite E in Hi, Hnj.
  apply (Permutation_in _ (sorted_perm _ _ _ _)) in Hi.
  assert (Hj' : In j (Statistical.ranked_indices scores)).
  { apply (Permutation_in _ (Permutation_sym (ranked_indices_perm scores))).
    rewrite K. apply in_seq. lia. }
  rewrite <- (firstn_skipn m (Statistical.ranked_indices scores)) in S, Hj'.
  apply in_app_or in Hj'. destruct Hj' as [Hj' | Hj'].
  - exfalso. apply Hnj.
    apply (Permutation_in _ (Permutation_sym (sorted_perm _ _ _ _))).
    exact Hj'.
  - eapply StronglySorted_app_inv; eassumption.
Qed.

Lemma picked_sentences_rank_first_witness :
  outranks [(0%nat, 2%Q); (1%nat, 5%Q); (2%nat, 2%Q); (3%nat, 1%Q)] 0%nat 2%nat.
Proof.
  apply (@picked_sentences_rank_first
           [(0%nat, 2%Q); (1%nat, 5%Q); (2%nat, 2%Q); (3%nat, 1%Q)] 4%nat 2%Z 0%nat 2%nat).
  - reflexivity.
  - vm_compute. tauto.
  - lia.
  - vm_compute. intros [H | [H | []]]; discriminate H.
Defined.

Lemma sorted_nothing_moves {A K} (lt : K -> K -> bool) (key : A -> K)
  (reverse : bool) (l : list A) :
  (forall x y, goes_before lt key reverse y x = false) ->
  sorted lt key reverse l = l.
Proof.
  intros H. induction l as [|x l IH]; simpl; [reflexivity|].
  fold (sorted lt key reverse l). rewrite IH.
  destruct l as [|y l]; simpl; [reflexivity|]. rewrite H. reflexivity.
Qed.

Lemma sorted_ascending_fixed (l : list nat) :
  StronglySorted lt l -> sorted Nat.ltb (fun i => i) false l = l.
Proof.
  induction 1 as [|x l Sl IH Hx]; simpl; [reflexivity|].
  fold (sorted Nat.ltb (fun i : nat => i) false l). rewrite IH.
  destruct l as [|y l]; simpl; [reflexivity|].
  inversion Hx; subst. unfold goes_before.
  replace (y <? x)%nat with false; [reflexivity|].
  symmetry. apply Nat.ltb_ge. lia.
Qed.

Lemma firstn_seq (a n m : nat) :
  (m <= n)%nat -> firstn m (seq a n) = seq a m.
Proof.
  revert a n. induction m as [|m IH]; intros a n H; [reflexivity|].
  destruct n as [|n]; [lia|]. simpl. rewrite IH by lia. reflexivity.
Qed.

Lemma pick_leading (sentences : list str) (n : nat) :
  (n <= length sentences)%nat ->
  mapM (fun i => index_or_raise sentences (Z.of_nat i)) (seq 0 n)
  = Ok (firstn n sentences).
Proof.
  intros H.
  destruct (@mapM_index sentences (seq 0 n)) as [picked [E F]].
  - apply Forall_forall. intros i Hi. apply in_seq in Hi. lia.
  - rewrite E. f_equal.
    assert (L : length picked = n).
    { rewrite <- (Forall2_length_eq F). apply length_seq. }
    assert (F' : Forall2 (fun i s => nth_error (firstn n sentences) i = Some s)
                   (seq 0 (length picked)) picked).
    { rewrite L. clear E L.
      assert (B : Forall (fun i => i < n)%nat (seq 0 n)).
      { apply Forall_forall. intros i Hi. apply in_seq in Hi. lia. }
      induction F as [|i s ps ss N _ IH]; [constructor|].
      inversion B as [|? ? Hi Bs]; subst.
      constructor; [|apply IH; exact Bs].
      rewrite nth_error_firstn.
      replace (i <? n)%nat with true; [exact N|].
      symmetry. apply Nat.ltb_lt. exact Hi. }
    apply Forall2_seq_skipn in F'; [exact F'|].
    rewrite length_firstn. lia.
Qed.

(** X5.  When the TF-IDF vectorizer raises ValueError (no vocabulary: every
    token is a stop word), all scores are zero and the stable sort moves
    nothing: for [0 <= num_sentences < number of sentences] the summary is
    the first [num_sentences] sentences of the text. *)
Theorem summary_without_vocabulary_is_the_lead
  (env : Env) (self : Statistical.StatisticalSummarizer)
  (text : str) (n : Z) :
  Statistical.method self = of_string "tfidf" ->
  blank text = false ->
  (0 <= n < len (sent_tokenize env (Statistical._preprocess_text text)))%Z ->
  fit_transform env (sent_tokenize env (Statistical._preprocess_text text))
  = None ->
  Statistical.summarize env self text n
  = Ok (join (of_string " ")
          (firstn (Z.to_nat n)
             (sent_tokenize env (Statistical._preprocess_text text)))).
Proof.
  intros M B [Hn L] V.
  unfold Statistical.summarize, Statistical.summarize_sentences.
  fold (guard text). rewrite guard_blank, B.
  set (text' := Statistical._preprocess_text text) in *.
  set (sentences := sent_tokenize env text') in *.
  destruct (len sentences <=? n)%Z eqn:E; [apply Z.leb_le in E; lia|].
  rewrite M.
  replace (str_eqb (of_string "tfidf") (of_string "tfidf")) with true
    by reflexivity.
  unfold Statistical._calculate_sentence_scores_tfidf.
  destruct sentences as [|s0 rest] eqn:Es; [unfold len in L; simpl in L; lia|].
  cbn [truthy negb]. rewrite V. rewrite <- Es in *. cbv beta iota zeta.
  set (scores := map (fun i : nat => (i, 0)) (seq 0 (length sentences))).
  assert (Z0 : forall i, Statistical.score_of scores i = 0).
  { intros i. unfold Statistical.score_of, scores.
    generalize (seq 0 (length sentences)). intros l.
    induction l as [|k l IH]; simpl; [reflexivity|].
    destruct (k =? i)%nat; [reflexivity | exact IH]. }
  assert (K : dict_keys scores = seq 0 (length sentences)).
  { unfold scores, dict_keys. rewrite map_map. apply map_id. }
  assert (T : Statistical.top_indices scores n = seq 0 (Z.to_nat n)).
  { unfold Statistical.top_indices, Statistical.ranked_indices.
    rewrite (@sorted_nothing_moves _ _ Qlt_bool
               (Statistical.score_of scores) true).
    - rewrite K. unfold slice_to.
      destruct (n <? 0)%Z eqn:N; [apply Z.ltb_lt in N; lia|].
      rewrite firstn_seq by (unfold len in L; lia).
      apply sorted_ascending_fixed, seq_sorted.
    - intros x y. unfold goes_before. rewrite !Z0. reflexivity. }
  rewrite T, pick_leading by (unfold len in L; lia).
  reflexivity.
Qed.

Lemma summary_without_vocabulary_is_the_lead_witness :
  Statistical.summarize env_no_vocabulary Reference.tfidf_summarizer
    Reference.text7 2
  = Ok (join (of_string " ")
          (firstn (Z.to_nat 2)
             (sent_tokenize env_no_vocabulary
                (Statistical._preprocess_text Reference.text7)))).
Proof.
  apply (@summary_without_vocabulary_is_the_lead env_no_vocabulary
           Reference.tfidf_summarizer Reference.text7 2).
  - reflexivity.
  - reflexivity.
  - vm_compute. split; [discriminate | reflexivity].
  - reflexivity.
Defined.

Lemma dict_update_counts (w : str) (c : dict str nat) :
  Forall (fun p : str * nat => 1 <= snd p)%nat c ->
  Forall (fun p : str * nat => 1 <= snd p)%nat
    (dict_update str_eqb
       (fun o => match o with Some n => S n | None => 1%nat end) w c).
Proof.
  induction 1 as [|[k v] c Hp Hc IH]; simpl.
  - repeat constructor.
  - destruct (str_eqb k w); constructor; simpl in *; try assumption; lia.
Qed.

(** Every word in a [Counter] has been counted at least once. *)
Lemma Counter_counts (words : list str) :
  Forall (fun p : str * nat => 1 <= snd p)%nat (Statistical.Counter words).
Proof.
  unfold Statistical.Counter.
  assert (G : forall c,
             Forall (fun p : str * nat => 1 <= snd p)%nat c ->
             Forall (fun p : str * nat => 1 <= snd p)%nat
               (fold_left
                  (fun c w =>
                     dict_update str_eqb
                       (fun o => match o with
                                 | Some n => S n
                                 | None => 1%nat
                                 end) w c) words c)).
  { induction words as [|w words IH]; intros c Hc; simpl; [exact Hc|].
    apply IH, dict_update_counts, Hc. }
  apply G. constructor.
Qed.

Lemma dict_get_In {K V} (eqb : K -> K -> bool) (d : dict K V) (k : K) (v : V) :
  dict_get eqb d k = Some v -> exists k', In (k', v) d.
Proof.
  induction d as [|[k' v'] d IH]; simpl; [discriminate|].
  destruct (eqb k' k).
  - intros H. injection H as ->. eauto.
  - intros H. destruct (IH H) as [k'' Hk]. eauto.
Qed.

Lemma np_sum_bounds (l : list Q) :
  Forall (fun x => 0 <= x /\ x <= 1) l ->
  0 <= Statistical.np_sum l /\ Statistical.np_sum l <= inject_Z (len l).
Proof.
  unfold Statistical.np_sum, len. intros F.
  assert (G : forall acc,
             acc <= fold_left Qplus l acc /\
             fold_left Qplus l acc
             <= acc + inject_Z (Z.of_nat (length l))).
  { induction F as [|x l [Hx0 Hx1] _ IH]; intros acc; simpl.
    - split; [apply Qle_refl|]. unfold inject_Z. lra.
    - destruct (IH (acc + x)) as [A B]. split; [lra|].
      rewrite Zpos_P_of_succ_nat, <- Z.add_1_r, inject_Z_plus.
      unfold inject_Z at 2. lra. }
  destruct (G 0) as [A B]. split; [exact A | lra].
Qed.

(** X6.  The score the frequency method gives a sentence is not negative
    and not above the number of tokens it counts in that sentence: every
    normalized word frequency lies in [0, 1], and the largest count it
    divides by is at least 1. *)
Theorem frequency_scores_bounded
  (env : Env) (self : Statistical.StatisticalSummarizer)
  (text : str) (sentences : list str) (i : nat) (score : Q) :
  In (i, score)
     (Statistical._calculate_sentence_scores_frequency env self text
        sentences) ->
  exists sentence,
    nth_error sentences i = Some sentence /\
    0 <= score /\
    score <= inject_Z (len (kept_words env self sentence)).
Proof.
  unfold Statistical._calculate_sentence_scores_frequency.
  set (counts := Statistical.Counter
                   (filter (Statistical.keep_word env self)
                      (word_tokenize env (str_lower env text)))).
  set (max_freq := if truthy counts then list_max (dict_values counts)
                   else 1%nat).
  set (freqs := map (fun wf : str * nat =>
                       (fst wf,
                        inject_Z (Z.of_nat (snd wf))
                        / inject_Z (Z.of_nat max_freq))) counts).
  intros H. apply in_map_iff in H. destruct H as [[k sentence] [E H]].
  injection E as <- <-. simpl fst. simpl snd.
  exists sentence. split; [apply enumerate_nth; exact H|].
  fold (kept_words env self sentence).
  cut (Forall (fun x => 0 <= x /\ x <= 1)
         (map (fun word => match dict_get str_eqb freqs word with
                           | Some f => f
                           | None => 0
                           end)
              (kept_words env self sentence))).
  { intros F. apply np_sum_bounds in F. unfold len in *.
    rewrite length_map in F. exact F. }
  apply Forall_forall. intros x Hx. apply in_map_iff in Hx.
  destruct Hx as [word [<- _]].
  destruct (dict_get str_eqb freqs word) as [f|] eqn:G; [|lra].
  apply dict_get_In in G. destruct G as [w' G].
  apply in_map_iff in G. destruct G as [[w c] [E G]].
  simpl in E. injection E as _ <-.
  assert (C1 : (1 <= c)%nat).
  { pose proof (Counter_counts
                  (filter (Statistical.keep_word env self)
                     (word_tokenize env (str_lower env text)))) as F.
    rewrite Forall_forall in F. apply (F (w, c)). exact G. }
  assert (C2 : (c <= max_freq)%nat).
  { unfold max_freq. destruct counts as [|p counts'] eqn:Ec; [destruct G|].
    cbn [truthy].
    pose proof (proj1 (list_max_le (dict_values (p :: counts'))
                         (list_max (dict_values (p :: counts'))))
                      (Nat.le_refl _)) as F.
    rewrite Forall_forall in F. apply F.
    unfold dict_values. apply (in_map snd _ (w, c)). exact G. }
  assert (P : 0 < inject_Z (Z.of_nat max_freq)).
  { change 0 with (inject_Z 0). rewrite <- Zlt_Qlt. lia. }
  assert (P0 : 0 <= inject_Z (Z.of_nat c)).
  { change 0 with (inject_Z 0). rewrite <- Zle_Qle. lia. }
  assert (P1 : inject_Z (Z.of_nat c) <= inject_Z (Z.of_nat max_freq)).
  { rewrite <- Zle_Qle. lia. }
  split.
  - apply Qle_shift_div_l; [exact P | lra].
  - apply Qle_shift_div_r; [exact P | lra].
Qed.

Lemma frequency_scores_bounded_witness :
  exists sentence,
    nth_error [of_string "AI helps."; of_string "AI is the future of AI."]
              1%nat = Some sentence /\
    0 <= 6 # 4 /\
    6 # 4 <= inject_Z (len (kept_words (Reference.env)
                              frequency_summarizer sentence)).
Proof.
  apply (@frequency_scores_bounded (Reference.env)
           frequency_summarizer
           (of_string "AI helps. AI is the future of AI.")
           [of_string "AI helps."; of_string "AI is the future of AI."]
           1%nat (6 # 4)).
  vm_compute. right. left. reflexivity.
Defined.

Lemma str_eqb_eq (a b : str) : str_eqb a b = true <-> a = b.
Proof.
  revert b. induction a as [|x a IH]; intros [|y b]; simpl;
    try (split; [discriminate | discriminate]); [tauto|].
  unfold char_eqb. split.
  - intros H. apply andb_prop in H. destruct H as [H1 H2].
    apply N.eqb_eq in H1. apply IH in H2. congruence.
  - intros H. injection H as -> ->. rewrite N.eqb_refl. simpl.
    apply IH. reflexivity.
Qed.

Lemma str_eqb_neq (a b : str) : str_eqb a b = false <-> a <> b.
Proof.
  split.
  - intros H E. apply str_eqb_eq in E. congruence.
  - intros H. destruct (str_eqb a b) eqn:E; [|reflexivity].
    apply str_eqb_eq in E. contradiction.
Qed.

(** X7.  [ExtractiveSummarizer(algorithm)] is constructed exactly for the
    names [get_available_algorithms] lists, compared after lowercasing; for
    every other name it raises the ValueError "Unknown algorithm: <name>"
    with the lowercased name. *)
Theorem extractive_init_accepts_listed_algorithms
  (env : Env) (algorithm : str) :
  match Extractive.__init__ env algorithm with
  | Ok self =>
      In (str_lower env algorithm) Extractive.get_available_algorithms /\
      Extractive.algorithm self = str_lower env algorithm
  | Raise e =>
      ~ In (str_lower env algorithm) Extractive.get_available_algorithms /\
      e = ValueError
            (of_string "Unknown algorithm: " ++ str_lower env algorithm)
  end.
Proof.
  unfold Extractive.__init__, Extractive._get_summarizer,
    Extractive.get_available_algorithms.
  set (name := str_lower env algorithm).
  destruct (str_eqb name (of_string "textrank")) eqn:E1.
  { apply str_eqb_eq in E1. cbn [bind Extractive.algorithm].
    split; [left; symmetry; exact E1 | reflexivity]. }
  destruct (str_eqb name (of_string "lexrank")) eqn:E2.
  { apply str_eqb_eq in E2. cbn [bind Extractive.algorithm].
    split; [right; left; symmetry; exact E2 | reflexivity]. }
  destruct (str_eqb name (of_string "luhn")) eqn:E3.
  { apply str_eqb_eq in E3. cbn [bind Extractive.algorithm].
    split; [right; right; left; symmetry; exact E3 | reflexivity]. }
  apply str_eqb_neq in E1, E2, E3. cbn [bind]. split; [|reflexivity].
  intros [H | [H | [H | []]]]; symmetry in H; contradiction.
Qed.

(** * Further properties of the retriever and the pipeline *)

Section IndexFacts.
Import Embeddings Retrieval.

Lemma build_index_built (r0 r : VectorRetriever) (docs : list str)
  (meta : option (list Retrieval.meta)) :
  build_index r0 docs meta = (Ok tt, r) ->
  exists m doc rest,
    docs = doc :: rest /\
    model (embedding_model r0) = Some m /\
    embedding_model r = embedding_model r0 /\
    documents r = docs /\
    index r = Some {| d := len (m doc); xb := map m docs |}.
Proof.
  unfold build_index. destruct docs as [|doc rest]; [discriminate|].
  cbn [truthy negb]. unfold embed_batch. cbn [Retrieval.embedding_model].
  destruct (model (Retrieval.embedding_model r0)) as [m|] eqn:M;
    [|discriminate].
  intros E. injection E as <-. exists m, doc, rest. cbn.
  repeat split.
Qed.

End IndexFacts.

(** X8.  After a successful [build_index] over [n] documents,
    [get_index_stats] reports status ready with [n] vectors, [n] documents
    and, as dimension, the length of the first document's embedding; on a
    retriever just constructed it reports not_built. *)
Theorem stats_after_build
  (r0 r : Retrieval.VectorRetriever) (docs : list str)
  (meta : option (list Retrieval.meta)) :
  Retrieval.build_index r0 docs meta = (Ok tt, r) ->
  (exists encoder doc rest,
     docs = doc :: rest /\
     Embeddings.model (Retrieval.embedding_model r0) = Some encoder /\
     Retrieval.get_index_stats r
     = Retrieval.stats_ready (len docs) (len (encoder doc)) (len docs)) /\
  Retrieval.get_index_stats
    (Retrieval.__init__ (Retrieval.embedding_model r0))
  = Retrieval.stats_not_built.
Proof.
  intros B. split; [|reflexivity].
  destruct (build_index_built _ _ _ B) as [m [doc [rest [E [M [_ [D I]]]]]]].
  exists m, doc, rest. split; [exact E|]. split; [exact M|].
  unfold Retrieval.get_index_stats. rewrite I, D.
  unfold ntotal, len. cbn [xb d]. rewrite length_map. reflexivity.
Qed.

Lemma stats_after_build_witness :
  (exists encoder doc rest,
     Reference.corpus = doc :: rest /\
     Embeddings.model (Retrieval.embedding_model Reference.fresh_retriever)
     = Some encoder /\
     Retrieval.get_index_stats Reference.built_retriever
     = Retrieval.stats_ready (len Reference.corpus) (len (encoder doc))
         (len Reference.corpus)) /\
  Retrieval.get_index_stats
    (Retrieval.__init__
       (Retrieval.embedding_model Reference.fresh_retriever))
  = Retrieval.stats_not_built.
Proof.
  apply (@stats_after_build Reference.fresh_retriever
           Reference.built_retriever Reference.corpus None).
  reflexivity.
Defined.

(** X9.  [build_index] on an empty document list raises the "Cannot build
    index from empty document list" ValueError and changes nothing, whatever
    the retriever.  With documents but an embedding model that is not loaded
    it raises "Model not loaded" after it has stored the new documents: the
    index stays as it was while [documents] already holds the new list. *)
Theorem build_index_failures
  (r0 : Retrieval.VectorRetriever) (docs : list str)
  (meta : option (list Retrieval.meta)) :
  Retrieval.build_index r0 [] meta = (Raise Retrieval.empty_corpus, r0) /\
  (docs <> [] ->
   Embeddings.model (Retrieval.embedding_model r0) = None ->
   exists r,
     Retrieval.build_index r0 docs meta = (Raise Embeddings.not_loaded, r) /\
     Retrieval.index r = Retrieval.index r0 /\
     Retrieval.documents r = docs).
Proof.
  split; [reflexivity|]. intros Hne M.
  unfold Retrieval.build_index. destruct docs as [|doc rest]; [congruence|].
  cbn [truthy negb]. unfold Embeddings.embed_batch.
  cbn [Retrieval.embedding_model]. rewrite M.
  eexists. split; [reflexivity|]. split; reflexivity.
Qed.

Lemma build_index_failures_witness :
  Retrieval.build_index unloaded_retriever [] None
  = (Raise Retrieval.empty_corpus, unloaded_retriever) /\
  exists r,
    Retrieval.build_index unloaded_retriever Reference.corpus None
    = (Raise Embeddings.not_loaded, r) /\
    Retrieval.index r = Retrieval.index unloaded_retriever /\
    Retrieval.documents r = Reference.corpus.
Proof.
  destruct (@build_index_failures unloaded_retriever Reference.corpus None)
    as [E F].
  split; [exact E|]. apply F.
  - discriminate.
  - reflexivity.
Defined.

(** X10.  [index_documents] is all or nothing: when it raises (an empty
    list, a model that is not loaded) the pipeline is exactly as before,
    with the retriever it had; when it returns, the pipeline holds a new
    retriever that is built over the given documents and uses the
    pipeline's embedding model. *)
Theorem index_documents_all_or_nothing
  (self : Pipeline.RAGPipeline) (docs : list str)
  (meta : option (list Retrieval.meta)) :
  match Pipeline.index_documents self docs meta with
  | (Raise e, after) => after = self
  | (Ok _, after) =>
      exists r,
        Pipeline.retriever after = Some r /\
        Retrieval.documents r = docs /\
        Retrieval.index r <> None /\
        Retrieval.embedding_model r = Pipeline.embedding_model self /\
        Pipeline.embedding_model after = Pipeline.embedding_model self
  end.
Proof.
  unfold Pipeline.index_documents, Retrieval.create_retriever.
  destruct (Retrieval.build_index
              (Retrieval.__init__ (Pipeline.embedding_model self)) docs meta)
    as [[[]|e] r] eqn:B; [|reflexivity].
  destruct (build_index_built _ _ _ B) as [m [doc [rest [_ [_ [Em [D I]]]]]]].
  exists r. cbn. repeat split; try assumption.
  rewrite I. discriminate.
Qed.

Lemma extractive_summarize_ok (env : Env)
  (self : Extractive.ExtractiveSummarizer) (text : str) (n : Z) :
  exists summary, Extractive.summarize env self text n = Ok summary.
Proof.
  unfold Extractive.summarize, Extractive.summarize_sentences.
  destruct (negb (truthy text) || negb (truthy (strip text)));
    eexists; reflexivity.
Qed.

Lemma statistical_summarize_ok (env : Env)
  (self : Statistical.StatisticalSummarizer) (text : str) (n : Z) :
  exists summary, Statistical.summarize env self text n = Ok summary.
Proof.
  unfold Statistical.summarize.
  destruct (statistical_sentences_ok env self text n) as [r ->].
  eexists. reflexivity.
Qed.

(** The summarizer [query_and_summarize] selects for a method name. *)
Lemma selected_summarizer_ok (env : Env) (p : Pipeline.RAGPipeline)
  (method text : str) (n : Z) :
  exists summary,
    (if str_eqb method (of_string "extractive")
     then Extractive.summarize env (Pipeline.extractive_summarizer p) text n
     else Statistical.summarize env (Pipeline.statistical_summarizer p)
            text n)
    = Ok summary.
Proof.
  destruct (str_eqb method (of_string "extractive")).
  - apply extractive_summarize_ok.
  - apply statistical_summarize_ok.
Qed.

(** X11.  After [index_documents] has returned on [n] documents given with
    metadata absent, empty or no shorter than the documents, and with an index
    search that answers with [k] labels of stored rows,
    [query_and_summarize] with [top_k >= 1] and any method name returns a
    response: it echoes the query, lists exactly [min(top_k, n)] retrieved
    documents with [num_retrieved] their number, and its summary is what
    the selected summarizer returns on the retrieved texts joined by single
    spaces, in the order retrieved. *)
Theorem query_after_indexing_answers
  (env : Env) (self p : Pipeline.RAGPipeline) (docs : list str)
  (meta : option (list Retrieval.meta)) (q : str) (top_k n : Z)
  (method : str) :
  faiss_contract env ->
  Pipeline.index_documents self docs meta = (Ok tt, p) ->
  metadata_matches docs meta ->
  (0 < top_k)%Z ->
  exists response,
    Pipeline.query_and_summarize env p q top_k n method = (Ok response, p) /\
    Pipeline.query response = q /\
    Pipeline.num_retrieved response = Z.min top_k (len docs) /\
    len (Pipeline.retrieved_documents response)
    = Pipeline.num_retrieved response /\
    (if str_eqb method (of_string "extractive")
     then Extractive.summarize env (Pipeline.extractive_summarizer p)
     else Statistical.summarize env (Pipeline.statistical_summarizer p))
      (join (of_string " ")
         (map (fun h : Retrieval.hit => fst (fst h))
              (Pipeline.retrieved_documents response)))
      n
    = Ok (Pipeline.summary response).
Proof.
  intros faiss Ix MM Hk.
  unfold Pipeline.index_documents, Retrieval.create_retriever in Ix.
  destruct (Retrieval.build_index
              (Retrieval.__init__ (Pipeline.embedding_model self)) docs meta)
    as [[[]|e] r] eqn:B; [|discriminate].
  injection Ix as <-.
  destruct (@retrieve_ok env faiss _ r docs meta q top_k B MM Hk)
    as [m [ix [results [_ [_ [E [F [L _]]]]]]]].
  assert (Hlen : len results = Z.min top_k (len docs)).
  { unfold len at 1. rewrite <- (Forall2_length_eq F), L.
    unfold len. lia. }
  unfold Pipeline.query_and_summarize.
  cbn [Pipeline.retriever Pipeline.set_retriever].
  rewrite E.
  assert (S : Pipeline.set_retriever
                (Pipeline.set_retriever self (Some r)) (Some r)
              = Pipeline.set_retriever self (Some r)) by reflexivity.
  rewrite S.
  set (p := Pipeline.set_retriever self (Some r)).
  set (combined := join (of_string " ")
                     (map (fun h : Retrieval.hit => fst (fst h)) results)).
  destruct (selected_summarizer_ok env p method combined n) as [summary Es].
  rewrite Es. eexists. split; [reflexivity|].
  cbn [Pipeline.query Pipeline.num_retrieved Pipeline.retrieved_documents
       Pipeline.summary].
  repeat split; try assumption.
  fold combined. destruct (str_eqb method (of_string "extractive")); exact Es.
Qed.

Lemma query_after_indexing_answers_witness :
  exists response,
    Pipeline.query_and_summarize (Reference.env)
      Reference.indexed_pipeline (of_string "quantum") 2 2
      (of_string "statistical")
    = (Ok response, Reference.indexed_pipeline) /\
    Pipeline.query response = of_string "quantum" /\
    Pipeline.num_retrieved response = Z.min 2 (len Reference.corpus) /\
    len (Pipeline.retrieved_documents response)
    = Pipeline.num_retrieved response /\
    (if str_eqb (of_string "statistical") (of_string "extractive")
     then Extractive.summarize (Reference.env)
            (Pipeline.extractive_summarizer Reference.indexed_pipeline)
     else Statistical.summarize (Reference.env)
            (Pipeline.statistical_summarizer Reference.indexed_pipeline))
      (join (of_string " ")
         (map (fun h : Retrieval.hit => fst (fst h))
              (Pipeline.retrieved_documents response)))
      2%Z
    = Ok (Pipeline.summary response).
Proof.
  apply (@query_after_indexing_answers (Reference.env)
           Reference.fresh_pipeline Reference.indexed_pipeline
           Reference.corpus None (of_string "quantum") 2 2
           (of_string "statistical")).
  - apply reference_faiss_contract.
  - reflexivity.
  - exact I.
  - lia.
Defined.

(** X12.  [compare_methods] agrees with [query_and_summarize]: when it
    returns, the two summaries, the retrieved documents and their count are
    those the two calls of [query_and_summarize] with methods "extractive"
    and "statistical" return for the same query, and [retrieval_scores]
    lists the similarities of the retrieved documents in order. *)
Theorem compare_methods_agrees_with_queries
  (env : Env) (self : Pipeline.RAGPipeline) (q : str) (top_k n : Z)
  (c : Pipeline.Comparison) :
  fst (Pipeline.compare_methods env self q top_k n) = Ok c ->
  fst (Pipeline.query_and_summarize env self q top_k n
         (of_string "extractive"))
  = Ok {| Pipeline.query := q;
          Pipeline.retrieved_documents := Pipeline.cmp_retrieved_documents c;
          Pipeline.summary := Pipeline.summaries_extractive c;
          Pipeline.num_retrieved := Pipeline.retrieved_count c |} /\
  fst (Pipeline.query_and_summarize env self q top_k n
         (of_string "statistical"))
  = Ok {| Pipeline.query := q;
          Pipeline.retrieved_documents := Pipeline.cmp_retrieved_documents c;
          Pipeline.summary := Pipeline.summaries_statistical c;
          Pipeline.num_retrieved := Pipeline.retrieved_count c |} /\
  Pipeline.retrieval_scores c
  = map similarity (Pipeline.cmp_retrieved_documents c) /\
  Pipeline.cmp_query c = q.
Proof.
  unfold Pipeline.compare_methods, Pipeline.query_and_summarize.
  destruct (Pipeline.retriever self) as [r|]; [|discriminate].
  destruct (Retrieval.retrieve env r q top_k) as [[results|e] r'];
    [|discriminate].
  replace (str_eqb (of_string "extractive") (of_string "extractive"))
    with true by reflexivity.
  replace (str_eqb (of_string "statistical") (of_string "extractive"))
    with false by reflexivity.
  cbn [Pipeline.set_retriever Pipeline.extractive_summarizer
       Pipeline.statistical_summarizer].
  destruct (Extractive.summarize env (Pipeline.extractive_summarizer self)
              _ n) as [se|e]; [|discriminate].
  destruct (Statistical.summarize env (Pipeline.statistical_summarizer self)
              _ n) as [ss|e]; [|discriminate].
  cbn [fst]. intros E. injection E as <-.
  cbn. repeat split.
Qed.

Lemma compare_methods_agrees_with_queries_witness :
  exists c,
    fst (Pipeline.compare_methods (Reference.env)
           Reference.indexed_pipeline (of_string "AI scans") 2 2) = Ok c /\
    fst (Pipeline.query_and_summarize (Reference.env)
           Reference.indexed_pipeline (of_string "AI scans") 2 2
           (of_string "extractive"))
    = Ok {| Pipeline.query := of_string "AI scans";
            Pipeline.retrieved_documents :=
              Pipeline.cmp_retrieved_documents c;
            Pipeline.summary := Pipeline.summaries_extractive c;
            Pipeline.num_retrieved := Pipeline.retrieved_count c |}.
Proof.
  eexists. split; [vm_compute; reflexivity|].
  apply (@compare_methods_agrees_with_queries (Reference.env)
           Reference.indexed_pipeline (of_string "AI scans") 2 2).
  vm_compute. reflexivity.
Defined.

(** X14.  The test [idx < len(self.documents)] in the loop of [retrieve]
    guards one side only.  A label at or above the number of documents is
    skipped.  A negative label down to [-len(documents)] is not: it indexes
    from the end, so the label -1 yields the last document.  A label below
    [-len(documents)] raises IndexError. *)
Theorem collect_label_bounds
  (docs : list str) (metas : list Retrieval.meta)
  (dist : Q) (idx : Z) (rest : list (Q * Z)) :
  length metas = length docs ->
  ((len docs <= idx)%Z ->
   Retrieval.collect docs metas ((dist, idx) :: rest)
   = Retrieval.collect docs metas rest)
  /\
  ((- len docs <= idx < 0)%Z ->
   exists doc m,
     nth_error docs (Z.to_nat (len docs + idx)) = Some doc /\
     nth_error metas (Z.to_nat (len docs + idx)) = Some m /\
     Retrieval.collect docs metas ((dist, idx) :: rest)
     = (results <- Retrieval.collect docs metas rest ;;
        Ok ((doc, 1 / (1 + dist), m) :: results)))
  /\
  ((idx < - len docs)%Z ->
   exists msg,
     Retrieval.collect docs metas ((dist, idx) :: rest)
     = Raise (IndexError msg)).
Proof.
  intros L. unfold len in *. repeat split.
  - intros H. simpl. unfold len.
    destruct (idx <? Z.of_nat (length docs))%Z eqn:E; [|reflexivity].
    apply Z.ltb_lt in E. lia.
  - intros H.
    destruct (nth_error docs (Z.to_nat (Z.of_nat (length docs) + idx)))
      as [doc|] eqn:Nd; [|apply nth_error_None in Nd; lia].
    destruct (nth_error metas (Z.to_nat (Z.of_nat (length docs) + idx)))
      as [m|] eqn:Nm; [|apply nth_error_None in Nm; lia].
    exists doc, m. split; [reflexivity|]. split; [reflexivity|].
    simpl. unfold index_or_raise, getitem, len. rewrite L.
    replace (idx <? Z.of_nat (length docs))%Z with true
      by (symmetry; apply Z.ltb_lt; lia).
    replace (idx <? 0)%Z with true by (symmetry; apply Z.ltb_lt; lia).
    replace ((0 <=? idx + Z.of_nat (length docs))
             && (idx + Z.of_nat (length docs) <? Z.of_nat (length docs)))%Z
      with true
      by (symmetry; apply andb_true_intro; split;
          [apply Z.leb_le | apply Z.ltb_lt]; lia).
    replace (idx + Z.of_nat (length docs))%Z
      with (Z.of_nat (length docs) + idx)%Z by lia.
    rewrite Nd, Nm. reflexivity.
  - intros H. eexists. simpl. unfold index_or_raise, getitem, len.
    replace (idx <? Z.of_nat (length docs))%Z with true
      by (symmetry; apply Z.ltb_lt; lia).
    replace (idx <? 0)%Z with true by (symmetry; apply Z.ltb_lt; lia).
    replace (0 <=? idx + Z.of_nat (length docs))%Z with false
      by (symmetry; apply Z.leb_gt; lia).
    reflexivity.
Qed.

Lemma collect_label_bounds_witness :
  exists doc m,
    nth_error Reference.twins (Z.to_nat (len Reference.twins + -1))
    = Some doc /\
    nth_error [[]; []] (Z.to_nat (len Reference.twins + -1)) = Some m /\
    Retrieval.collect Reference.twins [[]; []] [(0, (-1)%Z)]
    = (results <- Retrieval.collect Reference.twins [[]; []] [] ;;
       Ok ((doc, 1 / (1 + 0), m) :: results)).
Proof.
  destruct (@collect_label_bounds Reference.twins [[]; []] 0 (-1)%Z []
              eq_refl) as [_ [H _]].
  apply H. vm_compute. split; [discriminate | reflexivity].
Defined.

(** * Properties of the text utilities *)

Lemma lstrip_decompose (s : str) :
  exists q, s = q ++ lstrip s /\ blank q = true.
Proof.
  induction s as [|c s [q [E B]]]; simpl.
  - exists []. split; reflexivity.
  - destruct (isspace c) eqn:C.
    + exists (c :: q). simpl. rewrite C, B. split; [f_equal; exact E|].
      reflexivity.
    + exists []. split; reflexivity.
Qed.

Lemma rstrip_decompose (s : str) :
  exists p, s = rstrip s ++ p /\ blank p = true.
Proof.
  destruct (lstrip_decompose (rev s)) as [q [E B]].
  exists (rev q). split.
  - unfold rstrip. rewrite <- rev_app_distr, <- E, rev_involutive.
    reflexivity.
  - rewrite blank_rev. exact B.
Qed.

Lemma lstrip_fixed (s : str) : lstrip (lstrip s) = lstrip s.
Proof.
  destruct (lstrip s) as [|c rest] eqn:E; [reflexivity|].
  apply lstrip_head in E. simpl. rewrite E. reflexivity.
Qed.

Lemma strip_head (s : str) (c : char) (rest : str) :
  strip s = c :: rest -> isspace c = false.
Proof.
  unfold strip. intros E.
  destruct (rstrip_decompose (lstrip s)) as [p [D _]].
  rewrite E in D. simpl in D. apply (lstrip_head s D).
Qed.

Lemma strip_last (s : str) (init : str) (c : char) :
  strip s = init ++ [c] -> isspace c = false.
Proof.
  unfold strip, rstrip. intros E.
  apply (f_equal (@rev char)) in E.
  rewrite rev_involutive, rev_app_distr in E. simpl in E.
  apply (lstrip_head _ E).
Qed.

Lemma strip_fixed (s : str) : strip (strip s) = strip s.
Proof.
  assert (L : lstrip (strip s) = strip s).
  { destruct (strip s) as [|c rest] eqn:E; [reflexivity|].
    apply strip_head in E. simpl. rewrite E. reflexivity. }
  unfold strip at 1. rewrite L. unfold strip, rstrip.
  rewrite rev_involutive, lstrip_fixed. reflexivity.
Qed.

Lemma sub_ws_single_spaced (s : str) (b : bool) :
  single_spaced b (sub_ws b s) = true.
Proof.
  revert b. induction s as [|c s IH]; intros b; simpl; [reflexivity|].
  destruct (isspace c) eqn:C.
  - destruct b; [apply IH|]. simpl.
    replace (isspace SPACE) with true by reflexivity.
    rewrite IH. reflexivity.
  - simpl. rewrite C. apply IH.
Qed.

Lemma single_spaced_weaken (s : str) :
  single_spaced true s = true -> single_spaced false s = true.
Proof.
  destruct s as [|c s]; simpl; [auto|].
  destruct (isspace c); [|auto].
  rewrite andb_false_r. discriminate.
Qed.

Lemma single_spaced_lstrip (s : str) :
  single_spaced false s = true -> single_spaced false (lstrip s) = true.
Proof.
  induction s as [|c s IH]; simpl; [auto|].
  destruct (isspace c) eqn:C.
  - intros H. apply andb_prop in H. destruct H as [_ H].
    apply IH, single_spaced_weaken, H.
  - intros H. simpl. rewrite C. exact H.
Qed.

Lemma single_spaced_prefix (s t : str) (b : bool) :
  single_spaced b (s ++ t) = true -> single_spaced b s = true.
Proof.
  revert b. induction s as [|c s IH]; intros b; simpl; [auto|].
  destruct (isspace c).
  - intros H. apply andb_prop in H. destruct H as [H1 H2].
    rewrite H1. simpl. apply IH. exact H2.
  - apply IH.
Qed.

Lemma single_spaced_strip (s : str) :
  single_spaced false s = true -> single_spaced false (strip s) = true.
Proof.
  intros H. apply single_spaced_lstrip in H. unfold strip.
  destruct (rstrip_decompose (lstrip s)) as [p [D _]].
  rewrite D in H. apply single_spaced_prefix in H. exact H.
Qed.

Lemma sub_ws_fixed (s : str) (b : bool) :
  single_spaced b s = true -> sub_ws b s = s.
Proof.
  revert b. induction s as [|c s IH]; intros b; simpl; [reflexivity|].
  destruct (isspace c).
  - intros H. apply andb_prop in H. destruct H as [H1 H2].
    apply andb_prop in H1. destruct H1 as [Hc Hb].
    apply N.eqb_eq in Hc. apply negb_true_iff in Hb. subst b c.
    rewrite (IH true H2). reflexivity.
  - intros H. rewrite (IH false H). reflexivity.
Qed.

(** X15.  The text [clean_text] returns is in normal form: it neither
    starts nor ends with whitespace, and the only whitespace in it are
    single U+0020 spaces, never two in a row. *)
Theorem clean_text_normal_form (text : str) :
  single_spaced false (Data.clean_text text) = true /\
  (forall c rest, Data.clean_text text = c :: rest -> isspace c = false) /\
  (forall init c, Data.clean_text text = init ++ [c] -> isspace c = false).
Proof.
  unfold Data.clean_text, re_sub_ws. split; [|split].
  - apply single_spaced_strip, sub_ws_single_spaced.
  - intros c rest. apply strip_head.
  - intros init c. apply strip_last.
Qed.

Lemma clean_text_fixed (text : str) :
  Data.clean_text (Data.clean_text text) = Data.clean_text text.
Proof.
  unfold Data.clean_text, re_sub_ws.
  rewrite (@sub_ws_fixed (strip (sub_ws false text)) false).
  - apply strip_fixed.
  - apply single_spaced_strip, sub_ws_single_spaced.
Qed.

(** X16.  [clean_text] is idempotent, and the summarizer's
    [_preprocess_text] is the same function. *)
Theorem clean_text_idempotent (text : str) :
  Data.clean_text (Data.clean_text text) = Data.clean_text text /\
  Statistical._preprocess_text text = Data.clean_text text.
Proof.
  split; [apply clean_text_fixed | reflexivity].
Qed.

Lemma split_from_blank (p : str) (current : str) :
  blank p = true -> split_from current p = split_from current [].
Proof.
  revert current. induction p as [|c p IH]; intros current; [reflexivity|].
  simpl. intros B. apply andb_prop in B. destruct B as [C B]. rewrite C.
  rewrite (IH [] B). simpl. reflexivity.
Qed.

Lemma split_from_trailing (s p : str) (current : str) :
  blank p = true -> split_from current (s ++ p) = split_from current s.
Proof.
  intros B. revert current.
  induction s as [|c s IH]; intros current; simpl.
  - apply split_from_blank. exact B.
  - rewrite !IH. reflexivity.
Qed.

Lemma split_lstrip (s : str) : split (lstrip s) = split s.
Proof.
  unfold split. induction s as [|c s IH]; simpl; [reflexivity|].
  destruct (isspace c) eqn:C; [exact IH|].
  simpl. rewrite C. reflexivity.
Qed.

Lemma split_strip (s : str) : split (strip s) = split s.
Proof.
  unfold strip. rewrite <- (split_lstrip s).
  destruct (rstrip_decompose (lstrip s)) as [p [D B]].
  rewrite D at 2. unfold split. rewrite split_from_trailing by exact B.
  reflexivity.
Qed.

Lemma split_from_sub_ws (s : str) (b : bool) (current : str) :
  (b = true -> current = []) ->
  split_from current (sub_ws b s) = split_from current s.
Proof.
  revert b current. induction s as [|c s IH]; intros b current H;
    [reflexivity|].
  simpl. destruct (isspace c) eqn:C.
  - destruct b.
    + rewrite (H eq_refl). simpl. apply IH. auto.
    + simpl. replace (isspace SPACE) with true by reflexivity.
      rewrite (IH true []) by auto. reflexivity.
  - simpl. rewrite C. apply IH. discriminate.
Qed.

Lemma split_clean_text (text : str) :
  split (Data.clean_text text) = split text.
Proof.
  unfold Data.clean_text, re_sub_ws. rewrite split_strip.
  unfold split. apply split_from_sub_ws. discriminate.
Qed.

(** X17.  [validate_text] only counts words: it returns True exactly when
    [text.split()] has at least ten words (the strip and the emptiness test
    never decide otherwise), and cleaning the text first with [clean_text]
    does not change its verdict. *)
Theorem validate_text_counts_words (text : str) :
  Data.validate_text text = (10 <=? len (split text))%Z /\
  Data.validate_text (Data.clean_text text) = Data.validate_text text.
Proof.
  assert (V : forall t, Data.validate_text t = (10 <=? len (split t))%Z).
  { intros t. unfold Data.validate_text.
    rewrite split_strip.
    destruct (strip t) as [|c rest] eqn:E; cbn [truthy negb].
    - rewrite <- split_strip, E. reflexivity.
    - rewrite Z.leb_antisym. destruct (len (split t) <? 10)%Z; reflexivity. }
  split; [apply V|]. rewrite !V, split_clean_text. reflexivity.
Qed.

Lemma split_from_word (w rest current : str) :
  forallb (fun c => negb (isspace c)) w = true ->
  split_from current (w ++ rest) = split_from (rev w ++ current) rest.
Proof.
  revert current. induction w as [|c w IH]; intros current H; [reflexivity|].
  simpl in H. apply andb_prop in H. destruct H as [C H].
  apply negb_true_iff in C. simpl. rewrite C, IH by exact H.
  rewrite <- app_assoc. reflexivity.
Qed.

(** Splitting what [" ".join] made of words gives the words back. *)
Lemma split_join (ws : list str) :
  Forall (fun w => is_word w = true) ws ->
  split (join (of_string " ") ws) = ws.
Proof.
  unfold split. induction 1 as [|w ws Hw _ IH]; [reflexivity|].
  unfold is_word in Hw. apply andb_prop in Hw. destruct Hw as [Hne Hns].
  assert (T : truthy (rev w) = true).
  { destruct w; [discriminate|]. simpl. destruct (rev w); reflexivity. }
  destruct ws as [|w2 ws].
  - simpl. rewrite <- (app_nil_r w) at 1.
    rewrite split_from_word by exact Hns. simpl.
    rewrite app_nil_r, T, rev_involutive. reflexivity.
  - change (join (of_string " ") (w :: w2 :: ws))
      with (w ++ of_string " " ++ join (of_string " ") (w2 :: ws)).
    rewrite split_from_word by exact Hns.
    change (of_string " " ++ join (of_string " ") (w2 :: ws))
      with (SPACE :: join (of_string " ") (w2 :: ws)).
    cbn [split_from]. replace (isspace SPACE) with true by reflexivity.
    rewrite app_nil_r, T, rev_involutive, IH. reflexivity.
Qed.

Lemma forallb_reversed {A} (f : A -> bool) (l : list A) :
  forallb f (rev l) = forallb f l.
Proof.
  induction l as [|a l IH]; simpl; [reflexivity|].
  rewrite forallb_app, IH. simpl. rewrite andb_true_r. apply andb_comm.
Qed.

Lemma split_from_words (s current : str) :
  forallb (fun c => negb (isspace c)) current = true ->
  Forall (fun w => is_word w = true) (split_from current s).
Proof.
  assert (W : forall cur,
             forallb (fun c => negb (isspace c)) cur = true ->
             truthy cur = true -> is_word (rev cur) = true).
  { intros cur H T. unfold is_word. apply andb_true_intro. split.
    - destruct cur; [discriminate|]. simpl. destruct (rev cur); reflexivity.
    - rewrite forallb_reversed. exact H. }
  revert current. induction s as [|c s IH]; intros current H; simpl.
  - destruct (truthy current) eqn:T; repeat constructor. apply W; assumption.
  - destruct (isspace c) eqn:C.
    + destruct (truthy current) eqn:T.
      * constructor; [apply W; assumption | apply IH; reflexivity].
      * apply IH. reflexivity.
    + apply IH. simpl. rewrite C, H. reflexivity.
Qed.

Lemma split_words (s : str) : Forall (fun w => is_word w = true) (split s).
Proof. apply split_from_words. reflexivity. Qed.

Lemma chunk_loop_chunks (max : Z) (words : list str)
  (chunks current : list str) :
  Data.chunk_loop max words chunks current
  = chunks ++ Data.chunk_loop max words [] current.
Proof.
  revert chunks current.
  induction words as [|w words IH]; intros chunks current; simpl.
  - destruct (truthy current); [reflexivity | rewrite app_nil_r; reflexivity].
  - destruct (len (current ++ [w]) >=? max)%Z.
    + rewrite IH. rewrite (IH [_]). rewrite <- app_assoc. reflexivity.
    + apply IH.
Qed.

Lemma words_of_chunks_app (a b : list str) :
  words_of_chunks (a ++ b) = words_of_chunks a ++ words_of_chunks b.
Proof.
  unfold words_of_chunks. rewrite map_app. apply concat_app.
Qed.

Lemma words_of_one_chunk (ws : list str) :
  Forall (fun w => is_word w = true) ws ->
  words_of_chunks [join (of_string " ") ws] = ws.
Proof.
  intros H. unfold words_of_chunks. simpl.
  rewrite split_join by exact H. apply app_nil_r.
Qed.

Lemma chunk_loop_words (max : Z) (words current : list str) :
  Forall (fun w => is_word w = true) words ->
  Forall (fun w => is_word w = true) current ->
  words_of_chunks (Data.chunk_loop max words [] current) = current ++ words.
Proof.
  intros Hw. revert current.
  induction Hw as [|w words Hword _ IH]; intros current Hc; simpl.
  - rewrite app_nil_r. destruct current as [|c current]; [reflexivity|].
    cbn [truthy app]. apply words_of_one_chunk. exact Hc.
  - assert (Hc' : Forall (fun w => is_word w = true) (current ++ [w])).
    { apply Forall_app. split; [exact Hc | repeat constructor; exact Hword]. }
    destruct (len (current ++ [w]) >=? max)%Z.
    + rewrite chunk_loop_chunks, words_of_chunks_app. cbn [app].
      rewrite words_of_one_chunk by exact Hc'.
      rewrite IH by constructor. rewrite <- app_assoc. reflexivity.
    + rewrite IH by exact Hc'. rewrite <- app_assoc. reflexivity.
Qed.

(** X18.  [chunk_text] loses no word and adds none: the words of its
    chunks, read one chunk after the other, are the words of the text, for
    every [max_chunk_size]. *)
Theorem chunk_text_keeps_words (text : str) (max_chunk_size : Z) :
  words_of_chunks (Data.chunk_text text max_chunk_size) = split text.
Proof.
  unfold Data.chunk_text.
  destruct (len (split text) <=? max_chunk_size)%Z.
  - unfold words_of_chunks. simpl. apply app_nil_r.
  - rewrite chunk_loop_words; [reflexivity | apply split_words | constructor].
Qed.

Lemma chunk_loop_sizes (max : Z) (words current : list str) :
  (1 <= max)%Z ->
  Forall (fun w => is_word w = true) words ->
  Forall (fun w => is_word w = true) current ->
  (len current < max)%Z ->
  Forall (fun chunk => 1 <= len (split chunk) <= max)%Z
    (Data.chunk_loop max words [] current).
Proof.
  intros Hmax Hw. revert current.
  induction Hw as [|w words Hword _ IH]; intros current Hc Hlen; simpl.
  - destruct current as [|c current]; [constructor|].
    cbn [truthy]. repeat constructor;
      rewrite split_join by exact Hc; unfold len in *; simpl in *; lia.
  - assert (Hc' : Forall (fun w => is_word w = true) (current ++ [w])).
    { apply Forall_app. split; [exact Hc | repeat constructor; exact Hword]. }
    assert (L : len (current ++ [w]) = (len current + 1)%Z).
    { unfold len. rewrite length_app. simpl. lia. }
    destruct (len (current ++ [w]) >=? max)%Z eqn:E.
    + rewrite chunk_loop_chunks. cbn [app]. constructor.
      * rewrite split_join by exact Hc'. unfold len in *. lia.
      * apply IH; [constructor | unfold len; simpl; lia].
    + apply IH; [exact Hc'|].
      rewrite Z.geb_leb in E. apply Z.leb_gt in E. exact E.
Qed.

(** X19.  For [max_chunk_size >= 1] no chunk of [chunk_text] has more than
    [max_chunk_size] words, and when the text has more words than that, no
    chunk is empty. *)
Theorem chunk_text_chunk_sizes (text : str) (max_chunk_size : Z) :
  (1 <= max_chunk_size)%Z ->
  Forall (fun chunk => len (split chunk) <= max_chunk_size)%Z
    (Data.chunk_text text max_chunk_size) /\
  ((max_chunk_size < len (split text))%Z ->
   Forall (fun chunk => 1 <= len (split chunk))%Z
     (Data.chunk_text text max_chunk_size)).
Proof.
  intros Hmax. unfold Data.chunk_text.
  destruct (len (split text) <=? max_chunk_size)%Z eqn:E.
  - apply Z.leb_le in E. split; [repeat constructor; exact E | lia].
  - assert (S : Forall (fun chunk => 1 <= len (split chunk) <= max_chunk_size)%Z
                  (Data.chunk_loop max_chunk_size (split text) [] [])).
    { apply chunk_loop_sizes;
        [exact Hmax | apply split_words | constructor |
         unfold len; simpl; lia]. }
    split; [|intros _]; eapply Forall_impl; try exact S;
      intros chunk H; simpl in H; lia.
Qed.

Lemma chunk_text_chunk_sizes_witness :
  Forall (fun chunk => len (split chunk) <= 4)%Z
    (Data.chunk_text Reference.text7 4) /\
  ((4 < len (split Reference.text7))%Z ->
   Forall (fun chunk => 1 <= len (split chunk))%Z
     (Data.chunk_text Reference.text7 4)).
Proof.
  apply (@chunk_text_chunk_sizes Reference.text7 4). lia.
Defined.

Lemma chunk_loop_single_words (max : Z) (words : list str) :
  (max <= 1)%Z -> Data.chunk_loop max words [] [] = words.
Proof.
  intros Hmax. induction words as [|w words IH]; [reflexivity|].
  simpl. replace (len [w] >=? max)%Z with true.
  - rewrite chunk_loop_chunks, IH. reflexivity.
  - symmetry. rewrite Z.geb_leb. apply Z.leb_le. unfold len. simpl. lia.
Qed.

(** X20.  A [max_chunk_size] of 1, 0 or below does not make [chunk_text]
    fail or produce empty chunks: when the text has more words than
    [max_chunk_size], every word becomes a chunk of its own. *)
Theorem chunk_text_small_size (text : str) (max_chunk_size : Z) :
  (max_chunk_size <= 1)%Z ->
  (max_chunk_size < len (split text))%Z ->
  Data.chunk_text text max_chunk_size = split text.
Proof.
  intros Hmax Hlen. unfold Data.chunk_text.
  destruct (len (split text) <=? max_chunk_size)%Z eqn:E;
    [apply Z.leb_le in E; lia|].
  apply chunk_loop_single_words. exact Hmax.
Qed.

Lemma chunk_text_small_size_witness :
  Data.chunk_text (of_string " to be  or not ") 0
  = split (of_string " to be  or not ").
Proof.
  apply (@chunk_text_small_size (of_string " to be  or not ") 0).
  - lia.
  - vm_compute. reflexivity.
Defined.

(** * Properties of the metrics *)

(** X21.  [calculate_compression_ratio] is never negative and is 0 when
    the original or the summary is the empty string, whatever the texts; it
    is at most 1 whenever the summary has no more tokens than the
    original. *)
Theorem compression_ratio_bounds (env : Env) (original summary : str) :
  0 <= Metrics.calculate_compression_ratio env original summary /\
  ((len (word_tokenize env summary) <= len (word_tokenize env original))%Z ->
   Metrics.calculate_compression_ratio env original summary <= 1) /\
  Metrics.calculate_compression_ratio env [] summary = 0 /\
  Metrics.calculate_compression_ratio env original [] = 0.
Proof.
  unfold Metrics.calculate_compression_ratio.
  assert (E0 : (if negb (truthy original) || negb (truthy (@nil char))
                then 0
                else
                  if (len (word_tokenize env original) >? 0)%Z
                  then inject_Z (len (word_tokenize env []))
                       / inject_Z (len (word_tokenize env original))
                  else 0) = 0).
  { destruct original; reflexivity. }
  cbn [truthy negb orb]. split; [|split; [|split; [reflexivity | exact E0]]].
  - destruct (negb (truthy original) || negb (truthy summary));
      [apply Qle_refl|].
    destruct (len (word_tokenize env original) >? 0)%Z eqn:P;
      [|apply Qle_refl].
    apply Z.gtb_lt in P.
    assert (P' : 0 < inject_Z (len (word_tokenize env original))).
    { change 0 with (inject_Z 0). rewrite <- Zlt_Qlt. exact P. }
    assert (S0 : 0 <= inject_Z (len (word_tokenize env summary))).
    { change 0 with (inject_Z 0). rewrite <- Zle_Qle. unfold len. lia. }
    apply Qle_shift_div_l; [exact P' | lra].
  - intros H.
    destruct (negb (truthy original) || negb (truthy summary));
      [discriminate|].
    destruct (len (word_tokenize env original) >? 0)%Z eqn:P;
      [|discriminate].
    apply Z.gtb_lt in P.
    assert (P' : 0 < inject_Z (len (word_tokenize env original))).
    { change 0 with (inject_Z 0). rewrite <- Zlt_Qlt. exact P. }
    assert (S1 : inject_Z (len (word_tokenize env summary))
                 <= inject_Z (len (word_tokenize env original))).
    { rewrite <- Zle_Qle. exact H. }
    apply Qle_shift_div_r; [exact P' | lra].
Qed.

Lemma compression_ratio_bounds_witness :
  0 <= Metrics.calculate_compression_ratio (Reference.env)
         Reference.text7 (of_string "One. Four.") /\
  Metrics.calculate_compression_ratio (Reference.env)
    Reference.text7 (of_string "One. Four.") <= 1 /\
  Metrics.calculate_compression_ratio (Reference.env) []
    (of_string "One. Four.") = 0 /\
  Metrics.calculate_compression_ratio (Reference.env)
    Reference.text7 [] = 0.
Proof.
  destruct (@compression_ratio_bounds (Reference.env) Reference.text7
              (of_string "One. Four.")) as [N [L [E1 E2]]].
  split; [exact N|]. split; [|split; [exact E1 | exact E2]].
  apply L. vm_compute. discriminate.
Defined.

(** X22.  For a blank text (empty or whitespace only) the sentence count,
    the word count and the average sentence length are 0, whatever the
    tokenizers would return for it. *)
Theorem metrics_of_blank_text (env : Env) (text : str) :
  blank text = true ->
  Metrics.calculate_sentence_count env text = 0%Z /\
  Metrics.calculate_word_count env text = 0%Z /\
  Metrics.calculate_average_sentence_length env text = 0.
Proof.
  intros B.
  unfold Metrics.calculate_sentence_count, Metrics.calculate_word_count,
    Metrics.calculate_average_sentence_length.
  fold (guard text). rewrite guard_blank, B. repeat split.
Qed.

Lemma metrics_of_blank_text_witness :
  Metrics.calculate_sentence_count (Reference.env) [32; 10; 9]%N = 0%Z /\
  Metrics.calculate_word_count (Reference.env) [32; 10; 9]%N = 0%Z /\
  Metrics.calculate_average_sentence_length (Reference.env)
    [32; 10; 9]%N = 0.
Proof.
  apply (@metrics_of_blank_text (Reference.env) [32; 10; 9]%N).
  reflexivity.
Defined.

(** * The summarizer on cleaned text *)

Lemma split_from_nil_inv (s current : str) :
  split_from current s = [] -> current = [] /\ blank s = true.
Proof.
  revert current. induction s as [|c s IH]; intros current; simpl.
  - destruct current; [auto | discriminate].
  - destruct (isspace c) eqn:C.
    + destruct current as [|x current]; cbn [truthy]; [|discriminate].
      intros H. apply IH in H. destruct H as [_ H]. rewrite H. auto.
    + intros H. apply IH in H. destruct H as [H _]. discriminate H.
Qed.

Lemma split_nil_iff (s : str) : split s = [] <-> blank s = true.
Proof.
  unfold split. split.
  - intros H. apply split_from_nil_inv in H. tauto.
  - intros H. rewrite split_from_blank by exact H. reflexivity.
Qed.

Lemma blank_clean_text (text : str) :
  blank (Data.clean_text text) = blank text.
Proof.
  destruct (blank text) eqn:B.
  - apply split_nil_iff. rewrite split_clean_text. apply split_nil_iff.
    exact B.
  - destruct (blank (Data.clean_text text)) eqn:C; [|reflexivity].
    apply split_nil_iff in C. rewrite split_clean_text in C.
    apply split_nil_iff in C. congruence.
Qed.

(** X23.  The statistical summarizer does not see whitespace differences:
    summarizing [clean_text(text)] gives the same result as summarizing
    [text], for every text and [num_sentences]. *)
Theorem statistical_summarize_of_cleaned_text
  (env : Env) (self : Statistical.StatisticalSummarizer)
  (text : str) (n : Z) :
  Statistical.summarize env self (Data.clean_text text) n
  = Statistical.summarize env self text n.
Proof.
  unfold Statistical.summarize. f_equal.
  unfold Statistical.summarize_sentences.
  fold (guard (Data.clean_text text)). fold (guard text).
  rewrite !guard_blank, blank_clean_text.
  destruct (blank text); [reflexivity|].
  change (Statistical._preprocess_text (Data.clean_text text))
    with (Data.clean_text (Data.clean_text text)).
  change (Statistical._preprocess_text text) with (Data.clean_text text).
  rewrite clean_text_fixed. reflexivity.
Qed.

(** * Properties of the article loaders *)

Lemma filter_loop_filter (category : str) (rows : list (str * str * str))
  (ft fc : list str) :
  Data.filter_loop category rows ft fc
  = (ft ++ map (fun r : str * str * str => fst (fst r))
             (filter (fun r : str * str * str => str_eqb (snd r) category)
                     rows),
     fc ++ map (fun r : str * str * str => snd (fst r))
             (filter (fun r : str * str * str => str_eqb (snd r) category)
                     rows)).
Proof.
  revert ft fc. induction rows as [|[[t c] cat] rows IH]; intros ft fc; simpl.
  - rewrite !app_nil_r. reflexivity.
  - destruct (str_eqb cat category).
    + rewrite IH. simpl. rewrite <- !app_assoc. reflexivity.
    + apply IH.
Qed.

(** X24.  [load_articles_by_category] passes an error of the loader on
    unchanged.  Otherwise it returns the titles and the contents of the
    rows whose category equals the requested one, in file order, where the
    rows are the three columns zipped (cut to the shortest); the two lists
    always have the same length, and a category no row has gives two empty
    lists, not an error. *)
Theorem load_articles_by_category_filters
  (load : option str -> Data.load_error + (list str * list str * list str))
  (category : str) (csv_path : option str) :
  match load csv_path with
  | inl e => Data.load_articles_by_category load category csv_path = inl e
  | inr (titles, contents, categories) =>
      let rows :=
        filter (fun r : str * str * str => str_eqb (snd r) category)
               (combine (combine titles contents) categories) in
      Data.load_articles_by_category load category csv_path
      = inr (map (fun r : str * str * str => fst (fst r)) rows,
             map (fun r : str * str * str => snd (fst r)) rows) /\
      exists ts cs,
        Data.load_articles_by_category load category csv_path
        = inr (ts, cs) /\
        length ts = length cs /\
        (~ In category categories -> ts = [] /\ cs = [])
  end.
Proof.
  unfold Data.load_articles_by_category.
  destruct (load csv_path) as [e | [[titles contents] categories]];
    [reflexivity|].
  rewrite filter_loop_filter. cbn [app]. split; [reflexivity|].
  do 2 eexists. split; [reflexivity|]. split.
  - rewrite !length_map. reflexivity.
  - intros H.
    assert (E : filter (fun r : str * str * str => str_eqb (snd r) category)
                  (combine (combine titles contents) categories) = []).
    { generalize (combine titles contents). intros tc. revert tc.
      induction categories as [|cat cats IH]; intros [|p tc]; simpl;
        try reflexivity.
      destruct (str_eqb cat category) eqn:E.
      - apply str_eqb_eq in E. exfalso. apply H. left. exact E.
      - apply IH. intros G. apply H. right. exact G. }
    rewrite E. split; reflexivity.
Qed.

Lemma str_ltb_irrefl (a : str) : Data.str_ltb a a = false.
Proof.
  induction a as [|x a IH]; simpl; [reflexivity|].
  rewrite N.ltb_irrefl, N.eqb_refl, IH. reflexivity.
Qed.

Lemma str_ltb_trans (a b c : str) :
  Data.str_ltb a b = true -> Data.str_ltb b c = true ->
  Data.str_ltb a c = true.
Proof.
  revert b c. induction a as [|x a IH]; intros [|y b] [|z c]; simpl;
    try discriminate; try reflexivity.
  intros H1 H2.
  destruct (N.ltb_spec x y), (N.ltb_spec y z), (N.ltb_spec x z);
    simpl in *; try reflexivity; try lia.
  - destruct (N.eqb_spec y z); simpl in *; [lia | discriminate].
  - destruct (N.eqb_spec x y); simpl in *; [lia | discriminate].
  - destruct (N.eqb_spec x y), (N.eqb_spec y z), (N.eqb_spec x z);
      simpl in *; try discriminate; try lia.
    eapply IH; eassumption.
Qed.

Lemma str_ltb_total (a b : str) :
  Data.str_ltb a b = false -> Data.str_ltb b a = false -> a = b.
Proof.
  revert b. induction a as [|x a IH]; intros [|y b]; simpl;
    try discriminate; try reflexivity.
  intros H1 H2.
  destruct (N.ltb_spec x y), (N.ltb_spec y x); simpl in *;
    try discriminate; try lia.
  assert (x = y) by lia. subst y. rewrite N.eqb_refl in *. simpl in *.
  f_equal. apply IH; assumption.
Qed.

Lemma str_ltb_asym (a b : str) :
  Data.str_ltb a b = true -> Data.str_ltb b a = false.
Proof.
  intros H. destruct (Data.str_ltb b a) eqn:E; [|reflexivity].
  pose proof (str_ltb_trans _ _ _ H E) as C.
  rewrite str_ltb_irrefl in C. discriminate.
Qed.

Lemma str_le_trans (a b c : str) :
  Data.str_ltb b a = false -> Data.str_ltb c b = false ->
  Data.str_ltb c a = false.
Proof.
  intros H1 H2. destruct (Data.str_ltb c a) eqn:E; [|reflexivity].
  destruct (Data.str_ltb a b) eqn:F.
  - rewrite (str_ltb_trans _ _ _ E F) in H2. discriminate.
  - rewrite (str_ltb_total _ _ F H1) in E. congruence.
Qed.

Lemma existsb_str_eqb (x : str) (l : list str) :
  existsb (str_eqb x) l = true <-> In x l.
Proof.
  rewrite existsb_exists. split.
  - intros [y [Hy E]]. apply str_eqb_eq in E. subst. exact Hy.
  - intros H. exists x. split; [exact H | apply str_eqb_eq; reflexivity].
Qed.

Lemma distinct_In (l : list str) (c : str) :
  In c (Data.distinct l) <-> In c l.
Proof.
  induction l as [|x l IH]; simpl; [tauto|].
  destruct (existsb (str_eqb x) l) eqn:E.
  - apply existsb_str_eqb in E. rewrite IH. split; [tauto|].
    intros [<- | H]; assumption.
  - simpl. rewrite IH. tauto.
Qed.

Lemma distinct_NoDup (l : list str) : NoDup (Data.distinct l).
Proof.
  induction l as [|x l IH]; simpl; [constructor|].
  destruct (existsb (str_eqb x) l) eqn:E; [exact IH|].
  constructor; [|exact IH].
  intros H. apply (proj1 (distinct_In l x)) in H.
  apply (proj2 (existsb_str_eqb x l)) in H. rewrite H in E. discriminate.
Qed.

Lemma str_sorted_strict (l : list str) :
  StronglySorted (fun a b => Data.str_ltb b a = false) l ->
  NoDup l ->
  StronglySorted (fun a b => Data.str_ltb a b = true) l.
Proof.
  induction 1 as [|x rest Srest IH Hx]; intros ND; [constructor|].
  inversion ND as [|? ? Hnotin ND']; subst.
  constructor; [apply IH; exact ND'|].
  apply Forall_forall. intros y Hy.
  rewrite Forall_forall in Hx. specialize (Hx y Hy).
  destruct (Data.str_ltb x y) eqn:E; [reflexivity|].
  exfalso. apply Hnotin. rewrite (str_ltb_total _ _ E Hx). exact Hy.
Qed.

(** X25.  [get_available_categories] passes an error of the loader on
    unchanged.  Otherwise it returns the categories of the file, each
    exactly once, in strictly ascending order of their code points. *)
Theorem available_categories_sorted_distinct
  (load : option str -> Data.load_error + (list str * list str * list str))
  (csv_path : option str) :
  match load csv_path with
  | inl e => Data.get_available_categories load csv_path = inl e
  | inr (_, _, categories) =>
      exists result,
        Data.get_available_categories load csv_path = inr result /\
        StronglySorted (fun a b => Data.str_ltb a b = true) result /\
        (forall c, In c result <-> In c categories)
  end.
Proof.
  unfold Data.get_available_categories.
  destruct (load csv_path) as [e | [[titles contents] categories]];
    [reflexivity|].
  eexists. split; [reflexivity|].
  set (result := sorted Data.str_ltb (fun c : str => c) false
                   (Data.distinct categories)).
  assert (P : Permutation result (Data.distinct categories))
    by apply sorted_perm.
  split.
  - assert (S : StronglySorted (fun a b => Data.str_ltb b a = false) result).
    { apply sorted_sorted.
      - intros a b c. apply str_le_trans.
      - unfold goes_before. intros y x. apply str_ltb_asym.
      - unfold goes_before. intros y x H. exact H. }
    assert (ND : NoDup result).
    { apply (Permutation_NoDup (Permutation_sym P)), distinct_NoDup. }
    apply str_sorted_strict; assumption.
  - intros c. split; intros H.
    + apply (proj1 (distinct_In categories c)).
      apply (Permutation_in _ P). exact H.
    + apply (Permutation_in _ (Permutation_sym P)).
      apply (proj2 (distinct_In categories c)). exact H.
Qed.

Lemma load_articles_by_category_filters_witness :
  Data.load_articles_by_category Data.sample_loader (of_string "AI/ML") None
  = inr ([of_string "T1"; of_string "T3"], [of_string "C1"; of_string "C3"]).
Proof.
  exact (proj1 (load_articles_by_category_filters
                  Data.sample_loader (of_string "AI/ML") None)).
Defined.

Lemma available_categories_sorted_distinct_witness :
  exists result,
    Data.get_available_categories Data.sample_loader None = inr result /\
    StronglySorted (fun a b => Data.str_ltb a b = true) result /\
    (forall c, In c result
               <-> In c [of_string "AI/ML"; of_string "Quantum";
                         of_string "AI/ML"]).
Proof.
  exact (available_categories_sorted_distinct Data.sample_loader None).
Defined.
